(** * The alert feed of the hfFrontend client: AlertProvider

    A shallow embedding of the state logic of [AlertProvider]
    (the alert context of the React client) and the properties of its
    feed store: live pushes, paginated loading, read acknowledgement and
    friend-request actions.

    How the component is read here.  An [async] handler runs up to its
    first [await], where it has issued one HTTP request; it resumes when the
    request settles.  After the [await] no handler reads a state variable:
    it only calls state setters, almost always with an updater function
    ([setAlerts(prev => ...)]), dispatches a DOM event or logs.  A resumed
    handler is therefore a list of [Action]s, in the order the code performs
    them, and React applies the queued updaters, in that order, to the state
    current at that moment.  After a commit that replaced the [alerts] array
    the two effects with dependency list [[alerts]] run. *)

From Stdlib Require Import String.
From Stdlib Require Import List ZArith Bool Lia Permutation.
Import ListNotations.
Local Open Scope string_scope.
Local Open Scope Z_scope.
Local Open Scope list_scope.

(** ** Data *)

(** Modelled from the spec: the module [types/Alert] that declares the
    [Alert] interface is not part of the sources.  An alert has an integer
    [id], a boolean [isRead], an optional [processedAction] marker and
    payload fields the provider never inspects, kept here as one opaque
    string. *)
Record Alert : Type := mkAlert {
  id : Z;
  isRead : bool;
  processedAction : option string;
  payload : string
}.

(** The state variables of the component ([useState]) and the one ref that
    mirrors [alerts]. *)
Record State : Type := mkState {
  alerts : list Alert;
  toast : option Alert;
  hasMore : bool;
  page : Z;
  unreadAlerts : list Z;
  latestAlertsRef : list Alert
}.

(** The state a freshly mounted provider starts from. *)
Definition initialState : State :=
  {| alerts := []; toast := None; hasMore := true; page := 0;
     unreadAlerts := []; latestAlertsRef := [] |}.

(** The literal type ['accept' | 'reject']. *)
Inductive FriendAction : Type := accept | reject.

(** ** The network *)

(** The three requests the provider sends. *)
Inductive Request : Type :=
| GetAlerts (pageNo size : Z)
| PatchAlerts (alertIds : list Z)
| PostFriendRequest (requestId : Z) (action : FriendAction).

(** The body of an answer to [GetAlerts]: [{ resultCode, data: { content } }]. *)
Record AlertsBody : Type := mkBody {
  resultCode : string;
  content : list Alert
}.

(** What [fetch] resolves to: [ok] is [response.ok] (a 2xx status), [json]
    is the outcome of [response.json()], [None] when it rejects. *)
Record Response : Type := mkResponse {
  ok : bool;
  json : option AlertsBody
}.

(** A settled request: [None] when [fetch] itself rejects (network error). *)
Definition Reply : Type := option Response.

(** ** Actions of a handler *)

(** The [detail] of the [friendRequestProcessed] event. *)
Record Detail : Type := mkDetail {
  detail_requestId : Z;
  detail_action : FriendAction
}.

Inductive Action : Type :=
| SetAlerts (f : list Alert -> list Alert)
| SetToast (f : option Alert -> option Alert)
| SetHasMore (f : bool -> bool)
| SetPage (f : Z -> Z)
| SetUnreadAlerts (f : list Z -> list Z)
| DispatchEvent (name : string) (detail : Detail)
| ConsoleLog (msg : string)
| ConsoleError (msg : string).

(** [setX(v)] with a plain value is the updater that ignores the old one. *)
Definition value {A : Type} (v : A) : A -> A := fun _ => v.

(** ** The handlers *)

Definition includes (alertIds : list Z) (x : Z) : bool :=
  existsb (Z.eqb x) alertIds.

(** [loadMore], up to its first [await]: the request for the next page.
    The function reads [page] and nothing else. *)
Definition loadMore_request (s : State) : Request :=
  GetAlerts (page s + 1) 10.

(** [loadMore], from the [await] on. *)
Definition loadMore_resume (r : Reply) : list Action :=
  match r with
  | None => [ConsoleError "Failed to load more alerts:"]
  | Some response =>
    match json response with
    | None => [ConsoleError "Failed to load more alerts:"]
    | Some data =>
      if (resultCode data =? "200")%string then
        let newAlerts := content data in
        (if (Z.of_nat (length newAlerts) <? 10)%Z
         then [SetHasMore (value false)] else []) ++
        [SetAlerts (fun prev => prev ++ newAlerts);
         SetPage (fun prev => prev + 1)]
      else []
    end
  end.

(** [readAlerts(alertIds)]: the acknowledgement request, then the update. *)
Definition readAlerts_request (alertIds : list Z) : Request :=
  PatchAlerts alertIds.

Definition markRead (alertIds : list Z) (alert : Alert) : Alert :=
  if includes alertIds (id alert)
  then {| id := id alert; isRead := true;
          processedAction := processedAction alert;
          payload := payload alert |}
  else alert.

Definition readAlerts_resume (alertIds : list Z) (r : Reply) : list Action :=
  match r with
  | None => [ConsoleError "알림 읽음 처리 실패:"]
  | Some response =>
    if ok response then
      [SetAlerts (fun prev => map (markRead alertIds) prev);
       SetUnreadAlerts
         (fun prev => filter (fun i => negb (includes alertIds i)) prev)]
    else []
  end.

(** [fetchInitialAlerts], run when the provider mounts with a user. *)
Definition fetchInitialAlerts_request : Request := GetAlerts 0 10.

Definition fetchInitialAlerts_resume (r : Reply) : list Action :=
  match r with
  | None => [ConsoleError "Failed to fetch alerts:"]
  | Some response =>
    match json response with
    | None => [ConsoleError "Failed to fetch alerts:"]
    | Some data =>
      if (resultCode data =? "200")%string then
        [SetAlerts (value (content data));
         SetHasMore (value (Z.of_nat (length (content data)) =? 10)%Z);
         SetPage (value 0)]
      else []
    end
  end.

(** The subscription to [/user/{id}/queue/alerts].  [parsed] is the outcome
    of [JSON.parse(message.body)]; when it throws, the exception leaves the
    callback before any setter is reached. *)
Definition onAlertMessage (parsed : option Alert) : list Action :=
  ConsoleLog "Received alert:" ::
  match parsed with
  | Some newAlert => [SetAlerts (fun prev => newAlert :: prev)]
  | None => []
  end.

(** The subscription to [/user/{id}/queue/toast-alerts]. *)
Definition onToastMessage (parsed : option Alert) : list Action :=
  ConsoleLog "Received toast:" ::
  match parsed with
  | Some newAlert => [SetToast (value (Some newAlert))]
  | None => []
  end.

(** [handleFriendRequest(requestId, alertId, action)]. *)
Definition handleFriendRequest_request
    (requestId : Z) (action : FriendAction) : Request :=
  PostFriendRequest requestId action.

Definition actionLabel (action : FriendAction) : string :=
  match action with
  | accept => "수락 완료"
  | reject => "거절 완료"
  end.

Definition markProcessed (alertId : Z) (action : FriendAction)
    (alert : Alert) : Alert :=
  if (id alert =? alertId)%Z
  then {| id := id alert; isRead := isRead alert;
          processedAction := Some (actionLabel action);
          payload := payload alert |}
  else alert.

Definition handleFriendRequest_resume
    (requestId alertId : Z) (action : FriendAction) (r : Reply)
    : list Action :=
  match r with
  | None => [ConsoleError "친구 요청 처리 실패:"]
  | Some response =>
    if ok response then
      [SetAlerts (fun prev => map (markProcessed alertId action) prev);
       DispatchEvent "friendRequestProcessed"
         {| detail_requestId := requestId; detail_action := action |}]
    else []
  end.

(** ** Applying a handler's actions *)

Definition apply_action (a : Action) (s : State) : State :=
  match a with
  | SetAlerts f =>
      {| alerts := f (alerts s); toast := toast s; hasMore := hasMore s;
         page := page s; unreadAlerts := unreadAlerts s;
         latestAlertsRef := latestAlertsRef s |}
  | SetToast f =>
      {| alerts := alerts s; toast := f (toast s); hasMore := hasMore s;
         page := page s; unreadAlerts := unreadAlerts s;
         latestAlertsRef := latestAlertsRef s |}
  | SetHasMore f =>
      {| alerts := alerts s; toast := toast s; hasMore := f (hasMore s);
         page := page s; unreadAlerts := unreadAlerts s;
         latestAlertsRef := latestAlertsRef s |}
  | SetPage f =>
      {| alerts := alerts s; toast := toast s; hasMore := hasMore s;
         page := f (page s); unreadAlerts := unreadAlerts s;
         latestAlertsRef := latestAlertsRef s |}
  | SetUnreadAlerts f =>
      {| alerts := alerts s; toast := toast s; hasMore := hasMore s;
         page := page s; unreadAlerts := f (unreadAlerts s);
         latestAlertsRef := latestAlertsRef s |}
  | DispatchEvent _ _ | ConsoleLog _ | ConsoleError _ => s
  end.

Definition apply_actions (q : list Action) (s : State) : State :=
  fold_left (fun st a => apply_action a st) q s.

Definition replacesAlerts (a : Action) : bool :=
  match a with SetAlerts _ => true | _ => false end.

(** The ids of the unread entries, as both effects compute them:
    [alerts.filter(alert => !alert.isRead).map(alert => alert.id)]. *)
Definition unreadIds (l : list Alert) : list Z :=
  map id (filter (fun alert => negb (isRead alert)) l).

(** The two effects that depend on [[alerts]]: the ref is refreshed and the
    unread list recomputed. *)
Definition alertsEffects (s : State) : State :=
  {| alerts := alerts s; toast := toast s; hasMore := hasMore s;
     page := page s; unreadAlerts := unreadIds (alerts s);
     latestAlertsRef := alerts s |}.

(** One commit: the queued updaters are applied; when one of them was a
    [setAlerts], whose updaters all build a fresh array, the [[alerts]]
    effects run. *)
Definition commit (q : list Action) (s : State) : State :=
  let s' := apply_actions q s in
  if existsb replacesAlerts q then alertsEffects s' else s'.

(** What the outside world sees of a handler's actions: the events
    dispatched on [window]. *)
Fixpoint dispatched (q : list Action) : list (string * Detail) :=
  match q with
  | [] => []
  | DispatchEvent name d :: q' => (name, d) :: dispatched q'
  | _ :: q' => dispatched q'
  end.

(** ** The effect on [[isOpen]] *)

(** The body of the effect: the list of the calls of [readAlerts] it makes,
    each with its argument. *)
Definition isOpenEffect (isOpen : bool) (s : State) : list (list Z) :=
  if negb isOpen && (0 <? Z.of_nat (length (alerts s)))%Z then
    let unreadAlertIds := unreadIds (alerts s) in
    if (0 <? Z.of_nat (length unreadAlertIds))%Z
    then [unreadAlertIds] else []
  else [].

(** A re-render in which the prop went from [was] to [isOpen]: React runs
    the effect when the dependency changed. *)
Definition rerender_isOpen (was isOpen : bool) (s : State) : list (list Z) :=
  if Bool.eqb was isOpen then [] else isOpenEffect isOpen s.

(** ** Whole calls *)

(** What a call of an [async] handler amounts to when nothing else happens
    while its request is in flight: the request sent, the state after the
    commit of the resumed handler, and the events it dispatched. *)
Record Outcome : Type := mkOutcome {
  requests : list Request;
  final : State;
  events : list (string * Detail)
}.

Definition call (req : Request) (resume : Reply -> list Action)
    (net : Request -> Reply) (s : State) : Outcome :=
  let q := resume (net req) in
  {| requests := [req]; final := commit q s; events := dispatched q |}.

Definition loadMore (net : Request -> Reply) (s : State) : Outcome :=
  call (loadMore_request s) loadMore_resume net s.

Definition readAlerts (alertIds : list Z) (net : Request -> Reply)
    (s : State) : Outcome :=
  call (readAlerts_request alertIds) (readAlerts_resume alertIds) net s.

Definition handleFriendRequest (requestId alertId : Z)
    (action : FriendAction) (net : Request -> Reply) (s : State) : Outcome :=
  call (handleFriendRequest_request requestId action)
       (handleFriendRequest_resume requestId alertId action) net s.

(** ** Sequences of feed operations *)

(** The two operations that add entries, at the moment each of them mutates
    the store: a live push, and a [loadMore] resuming with its reply. *)
Inductive FeedOp : Type :=
| RecordIncoming (alert : Alert)
| LoadMore (r : Reply).

Definition feedStep (op : FeedOp) (s : State) : State :=
  match op with
  | RecordIncoming alert => commit (onAlertMessage (Some alert)) s
  | LoadMore r => commit (loadMore_resume r) s
  end.

Definition runFeed (ops : list FeedOp) (s : State) : State :=
  fold_left (fun st op => feedStep op st) ops s.

(** ** A push while loadMore is suspended *)

(** [loadMore] is called in [s] and sends its request; the push arrives
    while the request is in flight; [loadMore] then resumes, on the state
    of that moment. *)
Definition pushDuringLoadMore (net : Request -> Reply) (newAlert : Alert)
    (s : State) : State :=
  let req := loadMore_request s in
  let suspended := commit (onAlertMessage (Some newAlert)) s in
  commit (loadMore_resume (net req)) suspended.

(** The same call of [loadMore] resumes first and the push arrives after. *)
Definition pushAfterLoadMore (net : Request -> Reply) (newAlert : Alert)
    (s : State) : State :=
  commit (onAlertMessage (Some newAlert)) (final (loadMore net s)).

(** ** Vocabulary of the statements *)

(** The page a reply carries when [loadMore] accepts it: the body parsed
    and its result code is the string 200. *)
Definition loadedPage (r : Reply) : option (list Alert) :=
  match r with
  | Some {| json := Some data |} =>
      if (resultCode data =? "200")%string then Some (content data) else None
  | _ => None
  end.

(** The alerts a reply adds to the feed: its page, or nothing. *)
Definition loaded (r : Reply) : list Alert :=
  match loadedPage r with Some batch => batch | None => [] end.

(** A reply that acknowledges a [PATCH] or [POST]: the request settled with
    a 2xx status. *)
Definition acknowledged (r : Reply) : bool :=
  match r with Some response => ok response | None => false end.

(** The alerts an operation delivers. *)
Definition delivered (op : FeedOp) : list Alert :=
  match op with
  | RecordIncoming alert => [alert]
  | LoadMore r => loaded r
  end.

Definition ids (l : list Alert) : list Z := map id l.

(** The ids a sequence of operations delivers, one entry per delivery. *)
Definition deliveredIds (ops : list FeedOp) : list Z :=
  flat_map (fun op => ids (delivered op)) ops.

(** ** Sample data *)

Definition sampleAlert (i : Z) (read : bool) : Alert :=
  {| id := i; isRead := read; processedAction := None; payload := "" |}.

Definition okPage (l : list Alert) : Reply :=
  Some {| ok := true; json := Some {| resultCode := "200"; content := l |} |}.

Definition okReply : Reply := Some {| ok := true; json := None |}.

Definition tenAlerts : list Alert :=
  map (fun i => sampleAlert i false) [21; 22; 23; 24; 25; 26; 27; 28; 29; 30].

(** A feed holding alert 1, unread. *)
Definition feedOne : State :=
  {| alerts := [sampleAlert 1 false]; toast := None; hasMore := true;
     page := 0; unreadAlerts := [1]; latestAlertsRef := [sampleAlert 1 false] |}.

(** The same feed once a short page has ended the pagination. *)
Definition feedDone : State :=
  {| alerts := [sampleAlert 1 false]; toast := None; hasMore := false;
     page := 0; unreadAlerts := [1]; latestAlertsRef := [sampleAlert 1 false] |}.

(** A feed whose alert 11 was already answered with a rejection. *)
Definition feedRejected : State :=
  let a := {| id := 11; isRead := true;
              processedAction := Some (actionLabel reject); payload := "" |} in
  {| alerts := [a]; toast := None; hasMore := true; page := 0;
     unreadAlerts := []; latestAlertsRef := [a] |}.

(** A server that answers every request with a page holding alert 2. *)
Definition netPageTwo : Request -> Reply :=
  fun _ => okPage [sampleAlert 2 false].

(** A server that acknowledges every request. *)
Definition netOk : Request -> Reply := fun _ => okReply.

(** A server that is unreachable. *)
Definition netDown : Request -> Reply := fun _ => None.

(** The first scenario of the specification: the provider mounts and the
    first page brings alerts 1 to 10, unread. *)
Definition firstTen : list Alert :=
  map (fun i => sampleAlert i false) [1; 2; 3; 4; 5; 6; 7; 8; 9; 10].

Definition afterFirstPage : State :=
  commit (fetchInitialAlerts_resume (okPage firstTen)) initialState.

Definition afterPushEleven : State :=
  commit (onAlertMessage (Some (sampleAlert 11 false))) afterFirstPage.

(** ** The provider as a whole *)

(** Everything that reaches the provider's state: a handler resuming with
    its reply, a message on one of the two subscriptions, the toast being
    closed.  ([setAlerts], which the context also hands to its consumers,
    is not among them: no consumer is part of these sources.) *)
Inductive Event : Type :=
| InitialSettled (r : Reply)
| AlertMessage (parsed : option Alert)
| ToastMessage (parsed : option Alert)
| ToastClosed
| LoadMoreSettled (r : Reply)
| ReadSettled (alertIds : list Z) (r : Reply)
| FriendSettled (requestId alertId : Z) (action : FriendAction) (r : Reply).

(** [onClose={() => setToast(null)}]. *)
Definition onToastClose : list Action := [SetToast (value None)].

Definition handle (e : Event) : list Action :=
  match e with
  | InitialSettled r => fetchInitialAlerts_resume r
  | AlertMessage parsed => onAlertMessage parsed
  | ToastMessage parsed => onToastMessage parsed
  | ToastClosed => onToastClose
  | LoadMoreSettled r => loadMore_resume r
  | ReadSettled alertIds r => readAlerts_resume alertIds r
  | FriendSettled requestId alertId action r =>
      handleFriendRequest_resume requestId alertId action r
  end.

Definition step (e : Event) (s : State) : State := commit (handle e) s.

Definition run (events : list Event) (s : State) : State :=
  fold_left (fun st e => step e st) events s.

(** [unreadCount: unreadAlerts.length], as the context publishes it. *)
Definition unreadCount (s : State) : Z := Z.of_nat (length (unreadAlerts s)).

(** *** Vocabulary for histories *)

Definition isInitial (e : Event) : bool :=
  match e with InitialSettled _ => true | _ => false end.

Definition isToast (e : Event) : bool :=
  match e with ToastMessage _ | ToastClosed => true | _ => false end.

(** The alerts the pushes of a history carried, in order of arrival. *)
Definition pushedBy (e : Event) : list Alert :=
  match e with AlertMessage (Some newAlert) => [newAlert] | _ => [] end.

(** The alerts the accepted pages of [loadMore] carried, in order. *)
Definition loadedBy (e : Event) : list Alert :=
  match e with LoadMoreSettled r => loaded r | _ => [] end.

Definition pushedIn (events : list Event) : list Alert :=
  flat_map pushedBy events.

Definition loadedIn (events : list Event) : list Alert :=
  flat_map loadedBy events.

(** The number of replies to [loadMore] that carried an accepted page. *)
Definition pagesAcceptedIn (events : list Event) : Z :=
  Z.of_nat (length (filter
    (fun e => match e with
              | LoadMoreSettled r =>
                  match loadedPage r with Some _ => true | None => false end
              | _ => false
              end) events)).

(** A reply to [loadMore] that carried an accepted page of fewer than 10
    alerts. *)
Definition shortPage (e : Event) : bool :=
  match e with
  | LoadMoreSettled r =>
      match loadedPage r with
      | Some newAlerts => Z.of_nat (length newAlerts) <? 10
      | None => false
      end
  | _ => false
  end.

(** [later] is what an entry [earlier] may have become: the same alert,
    still read if it was read, still marked if it was marked. *)
Definition keeps (earlier later : Alert) : Prop :=
  id later = id earlier /\ payload later = payload earlier /\
  (isRead earlier = true -> isRead later = true) /\
  (processedAction earlier <> None -> processedAction later <> None).

(** Two calls of [loadMore] made before either settles: the requests they
    send, and the state once both have resumed with the server's answer. *)
Definition overlappingLoadMores (net : Request -> Reply) (s : State)
    : list Request * State :=
  let first := loadMore_request s in
  let second := loadMore_request s in
  ([first; second],
   run [LoadMoreSettled (net first); LoadMoreSettled (net second)] s).

(** The toast a history leaves on screen, given the one shown before. *)
Definition toastAfter (events : list Event) (shown : option Alert)
    : option Alert :=
  fold_left (fun t e => match e with
                        | ToastMessage (Some newAlert) => Some newAlert
                        | ToastClosed => None
                        | _ => t
                        end) events shown.

(** The state is as the [[alerts]] effects leave it. *)
Definition settled (s : State) : Prop :=
  unreadAlerts s = unreadIds (alerts s) /\ latestAlertsRef s = alerts s.

(** ** The push connection *)

(** What the effect on [[isLoggedIn]] drives.  A client object is named by
    the number of its construction; [clientRef] is [clientRef.current];
    [active] lists the clients on which [activate()] was called and
    [deactivate()] has not been since; [initialFetches] counts the calls of
    [fetchInitialAlerts]. *)
Record Connection : Type := mkConnection {
  clientRef : option nat;
  active : list nat;
  constructed : nat;
  initialFetches : nat
}.

Definition noConnection : Connection :=
  {| clientRef := None; active := []; constructed := 0;
     initialFetches := 0 |}.

(** The body of the effect.  [userInfo] is what the render read from
    [localStorage]: the user's id, or [None] for [null].  The result says
    whether a cleanup function was returned. *)
Definition loginEffect (userInfo : option Z) (c : Connection)
    : Connection * bool :=
  match userInfo with
  | None => (c, false)
  | Some _ =>
      let client := constructed c in
      ({| clientRef := Some client;
          active := client :: active c;
          constructed := S (constructed c);
          initialFetches := S (initialFetches c) |}, true)
  end.

(** The cleanup the effect returns; it reads the ref, not the client of
    its own run. *)
Definition loginCleanup (c : Connection) : Connection :=
  match clientRef c with
  | Some client =>
      {| clientRef := None;
         active := filter (fun k => negb (Nat.eqb k client)) (active c);
         constructed := constructed c;
         initialFetches := initialFetches c |}
  | None => c
  end.

(** The mounted provider as React sees this effect: the dependency of the
    last run ([None] while unmounted) and whether that run left a cleanup. *)
Record Mounted : Type := mkMounted {
  lastDep : option bool;
  hasCleanup : bool;
  conn : Connection
}.

Definition unmounted : Mounted :=
  {| lastDep := None; hasCleanup := false; conn := noConnection |}.

Inductive Lifecycle : Type :=
| Render (isLoggedIn : bool) (userInfo : option Z)
| Unmount.

Definition runCleanup (m : Mounted) : Connection :=
  if hasCleanup m then loginCleanup (conn m) else conn m.

Definition runEffect (isLoggedIn : bool) (userInfo : option Z)
    (c : Connection) : Mounted :=
  let '(c', cleanup) := loginEffect userInfo c in
  {| lastDep := Some isLoggedIn; hasCleanup := cleanup; conn := c' |}.

(** React runs the effect after the first render and after every render in
    which [isLoggedIn] differs from its value at the last run, the cleanup
    of the last run first; unmounting runs the cleanup alone. *)
Definition lifeStep (e : Lifecycle) (m : Mounted) : Mounted :=
  match e with
  | Render isLoggedIn userInfo =>
      match lastDep m with
      | None => runEffect isLoggedIn userInfo (conn m)
      | Some was =>
          if Bool.eqb was isLoggedIn then m
          else runEffect isLoggedIn userInfo (runCleanup m)
      end
  | Unmount =>
      {| lastDep := None; hasCleanup := false; conn := runCleanup m |}
  end.

Definition life (events : list Lifecycle) (m : Mounted) : Mounted :=
  fold_left (fun st e => lifeStep e st) events m.

(** The connection is in order: the only active client is the one the ref
    holds, a held client has its cleanup registered, nothing is held while
    unmounted, and every client came with one call of
    [fetchInitialAlerts]. *)
Definition oneClient (m : Mounted) : Prop :=
  active (conn m)
  = match clientRef (conn m) with Some client => [client] | None => [] end /\
  (clientRef (conn m) <> None -> hasCleanup m = true) /\
  (lastDep m = None -> clientRef (conn m) = None) /\
  initialFetches (conn m) = constructed (conn m).

(** ** Header and Login *)

(** [localStorage]: keys and values are strings. *)
Definition Storage : Type := list (string * string).

Fixpoint getItem (key : string) (st : Storage) : option string :=
  match st with
  | [] => None
  | (k, v) :: st' => if (k =? key)%string then Some v else getItem key st'
  end.

Definition removeItem (key : string) (st : Storage) : Storage :=
  filter (fun kv => negb (fst kv =? key)%string) st.

(** The guard of [localStorage.getItem('userInfo') ? ... : null], in
    [Header] and in [AlertProvider]: the item is there and is not the empty
    string. *)
Definition hasUserInfo (st : Storage) : bool :=
  match getItem "userInfo" st with
  | Some v => negb (v =? "")%string
  | None => false
  end.

(** The login state of the application and the browser around it. *)
Record Session : Type := mkSession {
  loggedIn : bool;
  localStorage : Storage;
  location : option string;
  errors : list string
}.

Inductive AuthRequest : Type :=
| PostLogin (email password : string)
| GetLogout.

(** [handleLogout] in [Header]: the request, then what follows the
    [await].  The response is not inspected. *)
Definition handleLogout_request : AuthRequest := GetLogout.

Definition handleLogout_resume (r : Reply) (s : Session) : Session :=
  match r with
  | Some _ =>
      {| loggedIn := false;
         localStorage :=
           removeItem "userInfo" (removeItem "isLoggedIn" (localStorage s));
         location := location s;
         errors := errors s |}
  | None =>
      {| loggedIn := loggedIn s; localStorage := localStorage s;
         location := location s;
         errors := errors s ++ ["로그아웃 실패:"] |}
  end.

(** [handleLogin] in [Login]: [location] becomes the page the browser is
    sent to. *)
Definition handleLogin_request (email password : string) : AuthRequest :=
  PostLogin email password.


(** The profile picture and the name [Header] shows.  A field that is
    [undefined] is [None]. *)
Definition bucket : string :=
  "https://kr.object.ncloudstorage.com/hf-bucket2025/member/".

Definition profileSrc (profilePath : string) : string :=
  if prefix "http" profilePath then profilePath
  else (bucket ++ profilePath)%string.

Definition truthy (field : option string) : bool :=
  match field with
  | Some v => negb (v =? "")%string
  | None => false
  end.

(** The [src] of the image, [None] when the initial is shown instead. *)
Definition profileImage (profilePath : option string) : option string :=
  match profilePath with
  | Some path => if truthy (Some path) then Some (profileSrc path) else None
  | None => None
  end.

Definition displayName (nickname : option string) : string :=
  match nickname with
  | Some name => if truthy (Some name) then name else "사용자"
  | None => "사용자"
  end.

(** ** Footer *)





(** ** Sample histories *)

Definition sampleHistory : list Event :=
  [AlertMessage (Some (sampleAlert 11 false));
   LoadMoreSettled (okPage [sampleAlert 2 true]);
   ReadSettled [11] okReply;
   AlertMessage (Some (sampleAlert 12 false));
   FriendSettled 5 11 accept okReply;
   ToastMessage (Some (sampleAlert 13 false))].

Definition sampleStorage : Storage :=
  [("isLoggedIn", "true"); ("userInfo", "{}"); ("theme", "dark")].

Definition sampleSession : Session :=
  {| loggedIn := true; localStorage := sampleStorage; location := None;
     errors := [] |}.

(** * Properties *)

(** ** Basic facts *)

Lemma includes_In (alertIds : list Z) (x : Z) :
  includes alertIds x = true <-> In x alertIds.
Proof.
  unfold includes. rewrite existsb_exists. split.
  - intros [y [Hy Heq]]. apply Z.eqb_eq in Heq. now subst.
  - intros H. exists x. split; [assumption | apply Z.eqb_refl].
Qed.

Lemma id_markRead (alertIds : list Z) (a : Alert) :
  id (markRead alertIds a) = id a.
Proof. unfold markRead. now destruct (includes alertIds (id a)). Qed.

Lemma id_markProcessed (alertId : Z) (action : FriendAction) (a : Alert) :
  id (markProcessed alertId action a) = id a.
Proof. unfold markProcessed. now destruct (id a =? alertId). Qed.

Lemma markRead_idem (alertIds : list Z) (a : Alert) :
  markRead alertIds (markRead alertIds a) = markRead alertIds a.
Proof.
  unfold markRead. destruct (includes alertIds (id a)) eqn:E; cbn; now rewrite E.
Qed.

Lemma markProcessed_idem (alertId : Z) (action : FriendAction) (a : Alert) :
  markProcessed alertId action (markProcessed alertId action a)
  = markProcessed alertId action a.
Proof.
  unfold markProcessed. destruct (id a =? alertId) eqn:E; cbn; now rewrite E.
Qed.

Lemma In_unreadIds (l : list Alert) (i : Z) :
  In i (unreadIds l) <-> exists a, In a l /\ id a = i /\ isRead a = false.
Proof.
  unfold unreadIds. rewrite in_map_iff. split.
  - intros [a [Hid Hin]]. apply filter_In in Hin as [Hin Hr].
    exists a. repeat split; try assumption. now destruct (isRead a).
  - intros [a [Hin [Hid Hr]]]. exists a. split; [assumption |].
    apply filter_In. split; [assumption | now rewrite Hr].
Qed.

Lemma unreadIds_markRead (alertIds : list Z) (l : list Alert) :
  unreadIds (map (markRead alertIds) l)
  = filter (fun i => negb (includes alertIds i)) (unreadIds l).
Proof.
  unfold unreadIds. induction l as [| a l IH]; [reflexivity |].
  cbn [map filter].
  destruct (isRead (markRead alertIds a)) eqn:M;
    unfold markRead in M; destruct (includes alertIds (id a)) eqn:E;
    cbn [isRead] in M; rewrite ?M; cbn [negb map filter];
    rewrite ?id_markRead, ?E; cbn [negb]; try discriminate;
    rewrite IH; try reflexivity.
  destruct (isRead a); cbn [negb map filter]; rewrite ?E; reflexivity.
Qed.

Lemma alertsEffects_idem (s : State) :
  alertsEffects (alertsEffects s) = alertsEffects s.
Proof. reflexivity. Qed.

(** A commit that only logs or dispatches leaves the state as it was. *)
Lemma commit_nil (s : State) : commit [] s = s.
Proof. reflexivity. Qed.

(** ** Live push *)

Lemma commit_onAlertMessage (newAlert : Alert) (s : State) :
  commit (onAlertMessage (Some newAlert)) s
  = {| alerts := newAlert :: alerts s; toast := toast s;
       hasMore := hasMore s; page := page s;
       unreadAlerts := unreadIds (newAlert :: alerts s);
       latestAlertsRef := newAlert :: alerts s |}.
Proof. reflexivity. Qed.

(** ** loadMore *)

Lemma loadedPage_inv (r : Reply) (batch : list Alert) :
  loadedPage r = Some batch ->
  exists response data,
    r = Some response /\ json response = Some data /\
    resultCode data = "200" /\ content data = batch.
Proof.
  destruct r as [[o [data |]] |]; cbn; try discriminate.
  destruct (resultCode data =? "200")%string eqn:E; [| discriminate].
  intros [= <-]. apply String.eqb_eq in E.
  now exists {| ok := o; json := Some data |}, data.
Qed.

(** The state a resumed [loadMore] commits, case by case on the reply. *)
Lemma commit_loadMore_resume (r : Reply) (s : State) :
  commit (loadMore_resume r) s
  = match loadedPage r with
    | None => s
    | Some newAlerts =>
        {| alerts := alerts s ++ newAlerts; toast := toast s;
           hasMore := if Z.of_nat (length newAlerts) <? 10
                      then false else hasMore s;
           page := page s + 1;
           unreadAlerts := unreadIds (alerts s ++ newAlerts);
           latestAlertsRef := alerts s ++ newAlerts |}
    end.
Proof.
  destruct r as [[o [data |]] |]; cbn [loadedPage loadMore_resume json];
    try reflexivity.
  destruct (resultCode data =? "200")%string; [| reflexivity].
  destruct (Z.of_nat (length (content data)) <? 10); reflexivity.
Qed.

Lemma alerts_loadMore_resume (r : Reply) (s : State) :
  alerts (commit (loadMore_resume r) s) = alerts s ++ loaded r.
Proof.
  rewrite commit_loadMore_resume. unfold loaded.
  destruct (loadedPage r); cbn; [reflexivity | now rewrite app_nil_r].
Qed.

(** ** C1: ids in the feed *)

Lemma ids_runFeed (ops : list FeedOp) (s : State) :
  Permutation (ids (alerts (runFeed ops s)))
              (ids (alerts s) ++ deliveredIds ops).
Proof.
  unfold runFeed. revert s.
  induction ops as [| op ops IH]; intros s; cbn [fold_left deliveredIds flat_map].
  - now rewrite app_nil_r.
  - rewrite IH. fold (deliveredIds ops). rewrite app_assoc.
    apply Permutation_app_tail.
    destruct op as [alert | r]; cbn [feedStep delivered].
    + rewrite commit_onAlertMessage. cbn [alerts ids map].
      change (id alert :: map id (alerts s))
        with ([id alert] ++ ids (alerts s)).
      apply Permutation_app_comm.
    + rewrite alerts_loadMore_resume. unfold ids. now rewrite map_app.
Qed.

(** C1, as the code has it: neither the push handler nor [loadMore] looks
    for the id of what it inserts.  After any sequence of pushes and
    [loadMore]s the ids in the feed are those it held before plus one entry
    for every delivery, so they are pairwise distinct exactly when the
    stored and the delivered ids, taken together, are: an id that is
    delivered again is stored again. *)
Theorem feed_ids_distinct_iff_deliveries_fresh :
  forall (ops : list FeedOp) (s : State),
    Permutation (ids (alerts (runFeed ops s)))
                (ids (alerts s) ++ deliveredIds ops) /\
    (NoDup (ids (alerts (runFeed ops s)))
     <-> NoDup (ids (alerts s) ++ deliveredIds ops)).
Proof.
  intros ops s. pose proof (ids_runFeed ops s) as P. split; [exact P |].
  split; intros H.
  - exact (Permutation_NoDup P H).
  - exact (Permutation_NoDup (Permutation_sym P) H).
Qed.

(** C1 fails as stated: alert 1 pushed into a feed that holds alert 1 is
    stored a second time. *)
Lemma redelivered_push_is_inserted :
  NoDup (ids (alerts feedOne)) /\
  ids (alerts (runFeed [RecordIncoming (sampleAlert 1 false)] feedOne)) = [1; 1] /\
  ~ NoDup (ids (alerts (runFeed [RecordIncoming (sampleAlert 1 false)] feedOne))).
Proof.
  split; [| split].
  - cbn. constructor; [intros [] | constructor].
  - reflexivity.
  - cbn. intros H. inversion H as [| x l Hn _]. apply Hn. now left.
Qed.

(** ** C2: loadMore and hasMore *)

(** C2, as the code has it: [loadMore] never reads [hasMore].  Called in a
    state where the flag is false it still sends the request for the page
    after the cursor; the flag stays false; when the reply carries a page
    (the body parses and its result code is 200) the page is appended and
    the cursor advances, and otherwise the state is left as it was. *)
Theorem loadMore_does_not_consult_hasMore :
  forall (net : Request -> Reply) (s : State),
    hasMore s = false ->
    requests (loadMore net s) = [GetAlerts (page s + 1) 10] /\
    hasMore (final (loadMore net s)) = false /\
    match loadedPage (net (GetAlerts (page s + 1) 10)) with
    | Some newAlerts =>
        alerts (final (loadMore net s)) = alerts s ++ newAlerts /\
        page (final (loadMore net s)) = page s + 1
    | None => final (loadMore net s) = s
    end.
Proof.
  intros net s Hm. unfold loadMore, call, loadMore_request.
  cbn [requests final]. rewrite commit_loadMore_resume.
  split; [reflexivity |].
  destruct (loadedPage (net (GetAlerts (page s + 1) 10))) as [newAlerts |];
    cbn [hasMore alerts page].
  - rewrite Hm. split; [now destruct (_ <? _) | split; reflexivity].
  - split; [assumption | reflexivity].
Qed.

Lemma loadMore_does_not_consult_hasMore_witness :
  hasMore feedDone = false /\
  requests (loadMore netPageTwo feedDone) = [GetAlerts 1 10] /\
  alerts (final (loadMore netPageTwo feedDone))
  = [sampleAlert 1 false; sampleAlert 2 false].
Proof.
  destruct (loadMore_does_not_consult_hasMore netPageTwo feedDone eq_refl)
    as [Hreq [_ Hpage]].
  split; [reflexivity | split; [exact Hreq | exact (proj1 Hpage)]].
Defined.

(** C2 fails as stated: with [hasMore] false, [loadMore] sends a request
    and, on a page in reply, extends the feed and moves the cursor. *)
Lemma loadMore_runs_when_hasMore_false :
  hasMore feedDone = false /\
  requests (loadMore netPageTwo feedDone) = [GetAlerts 1 10] /\
  alerts (final (loadMore netPageTwo feedDone)) <> alerts feedDone /\
  page (final (loadMore netPageTwo feedDone)) <> page feedDone.
Proof.
  split; [reflexivity | split; [reflexivity | split]]; cbn; discriminate.
Qed.

(** ** Friend requests *)

(** The state a resumed [handleFriendRequest] commits. *)
Lemma commit_handleFriendRequest_resume
    (requestId alertId : Z) (action : FriendAction) (r : Reply) (s : State) :
  commit (handleFriendRequest_resume requestId alertId action r) s
  = if acknowledged r
    then alertsEffects
           {| alerts := map (markProcessed alertId action) (alerts s);
              toast := toast s; hasMore := hasMore s; page := page s;
              unreadAlerts := unreadAlerts s;
              latestAlertsRef := latestAlertsRef s |}
    else s.
Proof.
  destruct r as [[[|] j] |]; reflexivity.
Qed.

Lemma dispatched_handleFriendRequest_resume
    (requestId alertId : Z) (action : FriendAction) (r : Reply) :
  dispatched (handleFriendRequest_resume requestId alertId action r)
  = if acknowledged r
    then [("friendRequestProcessed",
           {| detail_requestId := requestId; detail_action := action |})]
    else [].
Proof.
  destruct r as [[[|] j] |]; reflexivity.
Qed.

(** What [markProcessed] does to one entry: the marker is written when the
    id matches, whatever it was, and nothing else moves. *)
Lemma markProcessed_fields (alertId : Z) (action : FriendAction) (a : Alert) :
  id (markProcessed alertId action a) = id a /\
  isRead (markProcessed alertId action a) = isRead a /\
  payload (markProcessed alertId action a) = payload a /\
  processedAction (markProcessed alertId action a)
  = if id a =? alertId then Some (actionLabel action) else processedAction a.
Proof.
  unfold markProcessed. destruct (id a =? alertId); repeat split.
Qed.

Lemma actionLabel_injective (a b : FriendAction) :
  actionLabel a = actionLabel b -> a = b.
Proof. destruct a, b; cbn; intros H; try reflexivity; discriminate H. Qed.

(** C3, as the code has it: the marker is written unconditionally, so the
    last write wins.  After an acknowledged [handleFriendRequest] the feed
    has the same entries in the same places; every entry whose id is
    [alertId] carries the label of this action, whether or not it carried
    one before, and every other entry keeps its marker.  The stored value
    therefore survives a second write only when both writes have the same
    action. *)
Theorem processedAction_last_write_wins :
  forall (requestId alertId : Z) (action : FriendAction)
         (net : Request -> Reply) (s : State),
    acknowledged (net (PostFriendRequest requestId action)) = true ->
    let s' := final (handleFriendRequest requestId alertId action net s) in
    length (alerts s') = length (alerts s) /\
    (forall (k : nat) (a : Alert),
        nth_error (alerts s) k = Some a ->
        exists a',
          nth_error (alerts s') k = Some a' /\
          id a' = id a /\ isRead a' = isRead a /\ payload a' = payload a /\
          processedAction a'
          = if id a =? alertId then Some (actionLabel action)
            else processedAction a) /\
    (forall (k : nat) (a : Alert) (earlier : FriendAction),
        nth_error (alerts s) k = Some a -> id a = alertId ->
        processedAction a = Some (actionLabel earlier) ->
        (option_map processedAction (nth_error (alerts s') k)
         = Some (processedAction a) <-> earlier = action)).
Proof.
  intros requestId alertId action net s Hack s'. subst s'.
  unfold handleFriendRequest, call, handleFriendRequest_request.
  cbn [final]. rewrite commit_handleFriendRequest_resume, Hack.
  cbn [alerts alertsEffects]. split; [apply length_map |]. split.
  - intros k a Hk. exists (markProcessed alertId action a).
    rewrite nth_error_map, Hk. split; [reflexivity |].
    apply markProcessed_fields.
  - intros k a earlier Hk Hid Hp. rewrite nth_error_map, Hk. cbn [option_map].
    destruct (markProcessed_fields alertId action a) as [_ [_ [_ ->]]].
    rewrite Hid, Z.eqb_refl, Hp. split.
    + intros [= H]. symmetry. now apply actionLabel_injective.
    + now intros ->.
Qed.

Lemma processedAction_last_write_wins_witness :
  acknowledged (netOk (PostFriendRequest 5 accept)) = true /\
  exists a',
    nth_error (alerts (final (handleFriendRequest 5 11 accept netOk feedRejected))) 0
    = Some a' /\
    processedAction a' = Some (actionLabel accept).
Proof.
  split; [reflexivity |].
  destruct (processedAction_last_write_wins 5 11 accept netOk feedRejected
              eq_refl) as [_ [H _]].
  destruct (H 0%nat _ eq_refl) as [a' [Hn [_ [_ [_ Hp]]]]].
  exists a'. split; [exact Hn | exact Hp].
Defined.

(** C3 fails as stated: alert 11 was marked with the rejected label; an
    acknowledged accept replaces the marker by the accepted label. *)
Lemma accept_overwrites_rejected :
  map processedAction (alerts feedRejected) = [Some (actionLabel reject)] /\
  map processedAction
      (alerts (final (handleFriendRequest 5 11 accept netOk feedRejected)))
  = [Some (actionLabel accept)] /\
  actionLabel accept <> actionLabel reject.
Proof.
  split; [reflexivity | split; [reflexivity |]].
  intros H. apply actionLabel_injective in H. discriminate H.
Qed.

(** ** C4: a pushed alert *)

(** C4, as the code has it: the handler stores the decoded object as it
    is.  The pushed alert becomes the head of the feed and keeps the
    [isRead] its payload carries, false when the payload says so; the
    entries already there follow in their order, and the cursor and
    [hasMore] are not touched. *)
Theorem pushed_alert_is_prepended_as_decoded :
  forall (newAlert : Alert) (s : State),
    alerts (commit (onAlertMessage (Some newAlert)) s)
    = newAlert :: alerts s /\
    option_map isRead
      (hd_error (alerts (commit (onAlertMessage (Some newAlert)) s)))
    = Some (isRead newAlert) /\
    page (commit (onAlertMessage (Some newAlert)) s) = page s /\
    hasMore (commit (onAlertMessage (Some newAlert)) s) = hasMore s.
Proof.
  intros newAlert s. rewrite commit_onAlertMessage. repeat split.
Qed.

(** C4 fails as stated: a pushed payload that says [isRead: true] is at
    the head of the feed with [isRead] true. *)
Lemma pushed_alert_keeps_payload_isRead :
  option_map isRead
    (hd_error (alerts (commit (onAlertMessage (Some (sampleAlert 2 true)))
                              feedOne)))
  = Some true.
Proof. reflexivity. Qed.

(** ** C5: a page in reply to loadMore *)

(** C5, as the code has it: on a reply whose body parses with result code
    200 the returned alerts follow the existing entries in the order the
    server gave them and the cursor grows by one; [hasMore] becomes false
    when fewer than 10 alerts came back and otherwise keeps the value it
    had.  It equals (count = 10) whenever it was true before and the server
    kept to the page size. *)
Theorem loadMore_success_appends_and_advances :
  forall (response : Response) (data : AlertsBody) (s : State),
    json response = Some data ->
    resultCode data = "200" ->
    let s' := commit (loadMore_resume (Some response)) s in
    let count := Z.of_nat (length (content data)) in
    alerts s' = alerts s ++ content data /\
    page s' = page s + 1 /\
    hasMore s' = (if count <? 10 then false else hasMore s) /\
    (count < 10 -> hasMore s' = false) /\
    (hasMore s = true -> count <= 10 -> hasMore s' = (count =? 10)).
Proof.
  intros response data s Hj Hc s' count. subst s'.
  rewrite commit_loadMore_resume.
  assert (loadedPage (Some response) = Some (content data)) as ->.
  { destruct response as [o j]. cbn in Hj. subst j. cbn.
    rewrite Hc. reflexivity. }
  cbn [alerts page hasMore]. fold count.
  repeat split.
  - intros Hlt. apply Z.ltb_lt in Hlt. now rewrite Hlt.
  - intros Hm Hle. rewrite Hm.
    destruct (count <? 10) eqn:E.
    + apply Z.ltb_lt in E. symmetry. apply Z.eqb_neq. lia.
    + apply Z.ltb_ge in E. symmetry. apply Z.eqb_eq. lia.
Qed.

Lemma loadMore_success_appends_and_advances_witness :
  alerts (commit (loadMore_resume (okPage [sampleAlert 2 false])) feedOne)
  = [sampleAlert 1 false; sampleAlert 2 false] /\
  page (commit (loadMore_resume (okPage [sampleAlert 2 false])) feedOne) = 1 /\
  hasMore (commit (loadMore_resume (okPage [sampleAlert 2 false])) feedOne)
  = false.
Proof.
  destruct (loadMore_success_appends_and_advances
              {| ok := true;
                 json := Some {| resultCode := "200";
                                 content := [sampleAlert 2 false] |} |}
              {| resultCode := "200"; content := [sampleAlert 2 false] |}
              feedOne eq_refl eq_refl) as [Ha [Hp [Hm _]]].
  split; [exact Ha | split; [exact Hp | exact Hm]].
Defined.

(** C5 fails as stated: in a state whose [hasMore] is false a full page of
    10 alerts leaves [hasMore] false, although the count is 10. *)
Lemma full_page_does_not_raise_hasMore :
  Z.of_nat (length tenAlerts) = 10 /\
  alerts (commit (loadMore_resume (okPage tenAlerts)) feedDone)
  = alerts feedDone ++ tenAlerts /\
  hasMore (commit (loadMore_resume (okPage tenAlerts)) feedDone) = false /\
  hasMore (commit (loadMore_resume (okPage tenAlerts)) feedDone)
  <> (Z.of_nat (length tenAlerts) =? 10).
Proof.
  split; [reflexivity | split; [reflexivity | split; [reflexivity |]]].
  cbn. discriminate.
Qed.

(** ** C6: a push that arrives during loadMore *)

Lemma skipn_past_front {A : Type} (x : A) (front back : list A) :
  skipn (S (length front)) (x :: front ++ back) = back.
Proof.
  cbn [skipn]. induction front as [| y front IH]; [reflexivity | exact IH].
Qed.

(** C6: whether a push is handled while [loadMore] waits for its reply or
    after [loadMore] has resumed, the provider ends in the same state; its
    feed is the pushed alert, then the entries held before, then the
    alerts the reply added, so neither update is lost. *)
Theorem push_during_loadMore_is_not_lost :
  forall (net : Request -> Reply) (newAlert : Alert) (s : State),
    pushDuringLoadMore net newAlert s = pushAfterLoadMore net newAlert s /\
    alerts (pushDuringLoadMore net newAlert s)
    = newAlert :: alerts s ++ loaded (net (loadMore_request s)) /\
    hd_error (alerts (pushDuringLoadMore net newAlert s)) = Some newAlert /\
    skipn (S (length (alerts s))) (alerts (pushDuringLoadMore net newAlert s))
    = loaded (net (loadMore_request s)).
Proof.
  intros net newAlert s.
  unfold pushDuringLoadMore, pushAfterLoadMore, loadMore, call.
  cbn [final]. set (r := net (loadMore_request s)).
  rewrite !commit_loadMore_resume, commit_onAlertMessage. unfold loaded.
  destruct (loadedPage r) as [batch |]; cbn [alerts hd_error].
  - repeat split. apply skipn_past_front.
  - rewrite commit_onAlertMessage. cbn [alerts].
    repeat split; try now rewrite app_nil_r.
    rewrite <- (app_nil_r (alerts s)) at 2. apply skipn_past_front.
Qed.

(** ** C7: readAlerts *)

(** The state a resumed [readAlerts] commits. *)
Lemma commit_readAlerts_resume (alertIds : list Z) (r : Reply) (s : State) :
  commit (readAlerts_resume alertIds r) s
  = if acknowledged r
    then {| alerts := map (markRead alertIds) (alerts s);
            toast := toast s; hasMore := hasMore s; page := page s;
            unreadAlerts := unreadIds (map (markRead alertIds) (alerts s));
            latestAlertsRef := map (markRead alertIds) (alerts s) |}
    else s.
Proof.
  destruct r as [[[|] j] |]; reflexivity.
Qed.

Lemma markRead_fields (alertIds : list Z) (a : Alert) :
  id (markRead alertIds a) = id a /\
  processedAction (markRead alertIds a) = processedAction a /\
  payload (markRead alertIds a) = payload a /\
  isRead (markRead alertIds a)
  = if includes alertIds (id a) then true else isRead a.
Proof.
  unfold markRead. destruct (includes alertIds (id a)); repeat split.
Qed.

Lemma map_markRead_absent (alertIds : list Z) (l : list Alert) :
  (forall a, In a l -> ~ In (id a) alertIds) ->
  map (markRead alertIds) l = l.
Proof.
  intros H. rewrite <- (map_id l) at 2. apply map_ext_in. intros a Ha.
  unfold markRead. destruct (includes alertIds (id a)) eqn:E; [| reflexivity].
  apply includes_In in E. now apply H in Ha.
Qed.

(** C7: [readAlerts] changes the state only when the acknowledgement
    request settles with a 2xx status.  Otherwise (the request rejects or
    the status is not 2xx) the whole state, the feed and the unread list
    with it, is what it was.  On success the feed keeps its entries in
    place, those whose id is among [alertIds] have [isRead] true and no
    other field of any entry moves; the unread list is the earlier one
    without [alertIds], both as the handler sets it and as the effect
    recomputes it; ids that match no entry change nothing; and a second
    acknowledged call with the same ids leaves the state as the first
    left it. *)
Theorem readAlerts_commits_only_when_acknowledged :
  forall (alertIds : list Z) (net : Request -> Reply) (s : State),
    let r := net (PatchAlerts alertIds) in
    let s' := final (readAlerts alertIds net s) in
    requests (readAlerts alertIds net s) = [PatchAlerts alertIds] /\
    (acknowledged r = false -> s' = s) /\
    (acknowledged r = true ->
       length (alerts s') = length (alerts s) /\
       (forall (k : nat) (a : Alert),
           nth_error (alerts s) k = Some a ->
           exists a',
             nth_error (alerts s') k = Some a' /\
             id a' = id a /\ processedAction a' = processedAction a /\
             payload a' = payload a /\
             isRead a' = if includes alertIds (id a) then true
                         else isRead a) /\
       unreadAlerts (apply_actions (readAlerts_resume alertIds r) s)
       = filter (fun i => negb (includes alertIds i)) (unreadAlerts s) /\
       unreadAlerts s'
       = filter (fun i => negb (includes alertIds i)) (unreadIds (alerts s)) /\
       (forall i, In i alertIds -> ~ In i (unreadAlerts s')) /\
       ((forall a, In a (alerts s) -> ~ In (id a) alertIds) ->
        alerts s' = alerts s) /\
       final (readAlerts alertIds net s') = s').
Proof.
  intros alertIds net s r s'. subst s'.
  unfold readAlerts, call, readAlerts_request. cbn [requests final].
  fold r. rewrite !commit_readAlerts_resume. fold r.
  split; [reflexivity |]. split; intros Hack; rewrite Hack; [reflexivity |].
  cbn [alerts unreadAlerts toast hasMore page latestAlertsRef].
  split; [apply length_map |]. split; [| split; [| split; [| split; [| split]]]].
  - intros k a Hk. exists (markRead alertIds a).
    rewrite nth_error_map, Hk. split; [reflexivity |]. apply markRead_fields.
  - destruct r as [[[|] j] |]; try discriminate Hack. reflexivity.
  - apply unreadIds_markRead.
  - intros i Hi Hin. rewrite unreadIds_markRead in Hin.
    apply filter_In in Hin as [_ Hn]. apply includes_In in Hi.
    rewrite Hi in Hn. discriminate Hn.
  - apply map_markRead_absent.
  - assert (map (markRead alertIds) (map (markRead alertIds) (alerts s))
            = map (markRead alertIds) (alerts s)) as ->; [| reflexivity].
    rewrite map_map. apply map_ext. intros a. apply markRead_idem.
Qed.

Lemma readAlerts_commits_only_when_acknowledged_witness :
  final (readAlerts [1; 7] netDown feedOne) = feedOne /\
  map isRead (alerts (final (readAlerts [1; 7] netOk feedOne))) = [true] /\
  unreadAlerts (final (readAlerts [1; 7] netOk feedOne)) = [].
Proof.
  destruct (readAlerts_commits_only_when_acknowledged [1; 7] netDown feedOne)
    as [_ [Hfail _]].
  destruct (readAlerts_commits_only_when_acknowledged [1; 7] netOk feedOne)
    as [_ [_ Hok]].
  destruct (Hok eq_refl) as [_ [_ [_ [Hunread _]]]].
  split; [exact (Hfail eq_refl) | split; [reflexivity | exact Hunread]].
Defined.

(** ** C8: closing the feed *)

Lemma isOpenEffect_closed (s : State) :
  isOpenEffect false s
  = match unreadIds (alerts s) with
    | [] => []
    | _ :: _ => [unreadIds (alerts s)]
    end.
Proof.
  unfold isOpenEffect. cbn [negb andb].
  destruct (alerts s) as [| a l] eqn:E; [reflexivity |].
  assert ((0 <? Z.of_nat (length (a :: l))) = true) as ->.
  { apply Z.ltb_lt. cbn [length]. lia. }
  destruct (unreadIds (a :: l)) as [| i u]; [reflexivity |].
  assert ((0 <? Z.of_nat (length (i :: u))) = true) as ->; [| reflexivity].
  apply Z.ltb_lt. cbn [length]. lia.
Qed.

(** C8: when [isOpen] goes from true to false the effect runs.  If some
    entry of the feed has [isRead] false it calls [readAlerts] once, with
    the ids of all entries whose [isRead] is false, in feed order, and that
    call sends one acknowledgement request for these ids; if no entry is
    unread it calls nothing. *)
Theorem closing_the_feed_acknowledges_unread :
  forall (s : State),
    (unreadIds (alerts s) <> [] ->
     rerender_isOpen true false s = [unreadIds (alerts s)]) /\
    (unreadIds (alerts s) = [] -> rerender_isOpen true false s = []) /\
    (forall i, In i (unreadIds (alerts s))
               <-> exists a, In a (alerts s) /\ id a = i /\ isRead a = false) /\
    (forall alertIds net, In alertIds (rerender_isOpen true false s) ->
       requests (readAlerts alertIds net s)
       = [PatchAlerts (unreadIds (alerts s))]).
Proof.
  intros s. unfold rerender_isOpen. cbn [Bool.eqb].
  rewrite isOpenEffect_closed. repeat split.
  - intros Hne. destruct (unreadIds (alerts s)); [now elim Hne | reflexivity].
  - now intros ->.
  - apply In_unreadIds.
  - apply In_unreadIds.
  - intros alertIds net Hin.
    destruct (unreadIds (alerts s)) as [| i u] eqn:E; [destruct Hin |].
    destruct Hin as [<- | []]. reflexivity.
Qed.

Lemma closing_the_feed_acknowledges_unread_witness :
  rerender_isOpen true false feedOne = [[1]] /\
  rerender_isOpen true false feedRejected = [].
Proof.
  destruct (closing_the_feed_acknowledges_unread feedOne) as [Hsome _].
  destruct (closing_the_feed_acknowledges_unread feedRejected) as [_ [Hnone _]].
  split; [apply Hsome; discriminate | exact (Hnone eq_refl)].
Defined.

(** ** C9 and C10: handleFriendRequest *)

Lemma map_markProcessed_absent (alertId : Z) (action : FriendAction)
    (l : list Alert) :
  (forall a, In a l -> id a <> alertId) ->
  map (markProcessed alertId action) l = l.
Proof.
  intros H. rewrite <- (map_id l) at 2. apply map_ext_in. intros a Ha.
  unfold markProcessed. destruct (id a =? alertId) eqn:E; [| reflexivity].
  apply Z.eqb_eq in E. now apply H in Ha.
Qed.

(** C9: [handleFriendRequest] sends one request for [requestId] and
    [action].  When it is acknowledged, every entry of the feed whose id is
    [alertId] has the label of the action as its [processedAction], and one
    [friendRequestProcessed] event carrying [requestId] and [action] is
    dispatched.  When it is not (the request rejects or the status is not
    2xx) the state is what it was and no event is dispatched. *)
Theorem handleFriendRequest_marks_and_broadcasts :
  forall (requestId alertId : Z) (action : FriendAction)
         (net : Request -> Reply) (s : State),
    let r := net (PostFriendRequest requestId action) in
    let out := handleFriendRequest requestId alertId action net s in
    requests out = [PostFriendRequest requestId action] /\
    (acknowledged r = true ->
       (forall (k : nat) (a : Alert),
           nth_error (alerts s) k = Some a -> id a = alertId ->
           option_map processedAction (nth_error (alerts (final out)) k)
           = Some (Some (actionLabel action))) /\
       (forall a', In a' (alerts (final out)) -> id a' = alertId ->
                   processedAction a' = Some (actionLabel action)) /\
       ids (alerts (final out)) = ids (alerts s) /\
       events out
       = [("friendRequestProcessed",
           {| detail_requestId := requestId; detail_action := action |})]) /\
    (acknowledged r = false -> final out = s /\ events out = []).
Proof.
  intros requestId alertId action net s r out. subst out.
  unfold handleFriendRequest, call, handleFriendRequest_request.
  cbn [requests final events]. fold r.
  rewrite commit_handleFriendRequest_resume,
          dispatched_handleFriendRequest_resume.
  split; [reflexivity |]. split; intros Hack; rewrite Hack.
  - cbn [alerts alertsEffects]. repeat split.
    + intros k a Hk Hid. rewrite nth_error_map, Hk. cbn [option_map].
      destruct (markProcessed_fields alertId action a) as [_ [_ [_ ->]]].
      now rewrite Hid, Z.eqb_refl.
    + intros a' Hin Hid. apply in_map_iff in Hin as [a [<- _]].
      rewrite id_markProcessed in Hid.
      destruct (markProcessed_fields alertId action a) as [_ [_ [_ ->]]].
      now rewrite Hid, Z.eqb_refl.
    + unfold ids. rewrite map_map. apply map_ext. intros a.
      apply id_markProcessed.
  - split; reflexivity.
Qed.

Lemma handleFriendRequest_marks_and_broadcasts_witness :
  option_map processedAction
    (nth_error (alerts (final (handleFriendRequest 5 11 accept netOk
                                                   feedRejected))) 0)
  = Some (Some (actionLabel accept)) /\
  events (handleFriendRequest 5 11 accept netOk feedRejected)
  = [("friendRequestProcessed",
      {| detail_requestId := 5; detail_action := accept |})] /\
  final (handleFriendRequest 5 11 accept netDown feedRejected) = feedRejected /\
  events (handleFriendRequest 5 11 accept netDown feedRejected) = [].
Proof.
  destruct (handleFriendRequest_marks_and_broadcasts 5 11 accept netOk
              feedRejected) as [_ [Hok _]].
  destruct (handleFriendRequest_marks_and_broadcasts 5 11 accept netDown
              feedRejected) as [_ [_ Hfail]].
  destruct (Hok eq_refl) as [Hmark [_ [_ Hev]]].
  destruct (Hfail eq_refl) as [Hs He].
  split; [exact (Hmark 0%nat _ eq_refl eq_refl) |].
  split; [exact Hev | split; [exact Hs | exact He]].
Defined.

(** C10: when no entry of the feed has the id [alertId], an acknowledged
    [handleFriendRequest] leaves the feed as it was, entry for entry, and
    still dispatches the [friendRequestProcessed] event with [requestId]
    and [action]. *)
Theorem handleFriendRequest_absent_alert_still_broadcasts :
  forall (requestId alertId : Z) (action : FriendAction)
         (net : Request -> Reply) (s : State),
    (forall a, In a (alerts s) -> id a <> alertId) ->
    acknowledged (net (PostFriendRequest requestId action)) = true ->
    alerts (final (handleFriendRequest requestId alertId action net s))
    = alerts s /\
    events (handleFriendRequest requestId alertId action net s)
    = [("friendRequestProcessed",
        {| detail_requestId := requestId; detail_action := action |})].
Proof.
  intros requestId alertId action net s Habsent Hack.
  unfold handleFriendRequest, call, handleFriendRequest_request.
  cbn [final events].
  rewrite commit_handleFriendRequest_resume,
          dispatched_handleFriendRequest_resume, Hack.
  cbn [alerts alertsEffects]. split; [| reflexivity].
  now apply map_markProcessed_absent.
Qed.

Lemma handleFriendRequest_absent_alert_still_broadcasts_witness :
  alerts (final (handleFriendRequest 5 11 reject netOk feedOne))
  = alerts feedOne /\
  events (handleFriendRequest 5 11 reject netOk feedOne)
  = [("friendRequestProcessed",
      {| detail_requestId := 5; detail_action := reject |})].
Proof.
  apply (handleFriendRequest_absent_alert_still_broadcasts 5 11 reject netOk
           feedOne).
  - intros a [<- | []]. cbn. discriminate.
  - reflexivity.
Defined.

(** ** The scenario of the specification, run on the model *)

Example scenario_first_page :
  ids (alerts afterFirstPage) = [1; 2; 3; 4; 5; 6; 7; 8; 9; 10] /\
  length (unreadAlerts afterFirstPage) = 10%nat /\
  hasMore afterFirstPage = true /\ page afterFirstPage = 0.
Proof. repeat split. Qed.

Example scenario_push :
  ids (alerts afterPushEleven) = [11; 1; 2; 3; 4; 5; 6; 7; 8; 9; 10] /\
  length (unreadAlerts afterPushEleven) = 11%nat.
Proof. split; reflexivity. Qed.

Example scenario_close :
  rerender_isOpen true false afterPushEleven
  = [[11; 1; 2; 3; 4; 5; 6; 7; 8; 9; 10]] /\
  forallb isRead
    (alerts (final (readAlerts [11; 1; 2; 3; 4; 5; 6; 7; 8; 9; 10] netOk
                               afterPushEleven))) = true /\
  unreadAlerts (final (readAlerts [11; 1; 2; 3; 4; 5; 6; 7; 8; 9; 10] netOk
                                  afterPushEleven)) = [].
Proof. repeat split. Qed.

Example scenario_toast :
  toast (commit (onToastMessage (Some (sampleAlert 3 false))) feedOne)
  = Some (sampleAlert 3 false) /\
  alerts (commit (onToastMessage (Some (sampleAlert 3 false))) feedOne)
  = alerts feedOne.
Proof. split; reflexivity. Qed.

(** * Further properties of the provider *)

(** ** What each event does to the feed *)

Lemma commit_fetchInitialAlerts_resume (r : Reply) (s : State) :
  commit (fetchInitialAlerts_resume r) s
  = match loadedPage r with
    | None => s
    | Some firstPage =>
        {| alerts := firstPage; toast := toast s;
           hasMore := Z.of_nat (length firstPage) =? 10;
           page := 0;
           unreadAlerts := unreadIds firstPage;
           latestAlertsRef := firstPage |}
    end.
Proof.
  destruct r as [[o [data |]] |];
    cbn [loadedPage fetchInitialAlerts_resume json]; try reflexivity.
  destruct (resultCode data =? "200")%string; reflexivity.
Qed.

Lemma step_AlertMessage_None (s : State) : step (AlertMessage None) s = s.
Proof. reflexivity. Qed.

Lemma step_toast (e : Event) (s : State) :
  isToast e = true ->
  step e s
  = {| alerts := alerts s;
       toast := toastAfter [e] (toast s);
       hasMore := hasMore s; page := page s;
       unreadAlerts := unreadAlerts s;
       latestAlertsRef := latestAlertsRef s |}.
Proof.
  destruct e as [r | p | [a |] | | r | l r | q a f r]; try discriminate;
    intros _; destruct s; reflexivity.
Qed.

(** The feed after one event, for every event but the first page. *)
Lemma alerts_step (e : Event) (s : State) :
  isInitial e = false ->
  alerts (step e s)
  = match e with
    | ReadSettled alertIds r =>
        if acknowledged r then map (markRead alertIds) (alerts s)
        else alerts s
    | FriendSettled _ alertId action r =>
        if acknowledged r then map (markProcessed alertId action) (alerts s)
        else alerts s
    | _ => pushedBy e ++ alerts s ++ loadedBy e
    end.
Proof.
  destruct e as [r | [a |] | [a |] | | r | l r | q a f r]; intros H;
    try discriminate H; unfold step; cbn [handle pushedBy loadedBy];
    try (cbn; now rewrite app_nil_r).
  - rewrite alerts_loadMore_resume. reflexivity.
  - rewrite commit_readAlerts_resume. now destruct (acknowledged r).
  - rewrite commit_handleFriendRequest_resume. now destruct (acknowledged r).
Qed.

Lemma ids_map_markRead (alertIds : list Z) (l : list Alert) :
  ids (map (markRead alertIds) l) = ids l.
Proof.
  unfold ids. rewrite map_map. apply map_ext. intros a. apply id_markRead.
Qed.

Lemma ids_map_markProcessed (alertId : Z) (action : FriendAction)
    (l : list Alert) :
  ids (map (markProcessed alertId action) l) = ids l.
Proof.
  unfold ids. rewrite map_map. apply map_ext. intros a.
  apply id_markProcessed.
Qed.

Lemma run_app (h1 h2 : list Event) (s : State) :
  run (h1 ++ h2) s = run h2 (run h1 s).
Proof. apply fold_left_app. Qed.

Lemma toast_run_quiet (history : list Event) (s : State) :
  existsb isToast history = false -> toast (run history s) = toast s.
Proof.
  revert s. induction history as [| e h IH]; intros s Hq; [reflexivity |].
  cbn [existsb] in Hq. apply orb_false_iff in Hq as [He Hh].
  cbn [run fold_left]. fold (run h (step e s)). rewrite (IH _ Hh).
  destruct e as [r | [a |] | [a |] | | r | l r | q a f r];
    try discriminate He; unfold step; cbn [handle]; try reflexivity.
  - rewrite commit_fetchInitialAlerts_resume. now destruct (loadedPage r).
  - rewrite commit_loadMore_resume. now destruct (loadedPage r).
  - rewrite commit_readAlerts_resume. now destruct (acknowledged r).
  - rewrite commit_handleFriendRequest_resume.
    now destruct (acknowledged r).
Qed.

(** ** X1: the first page *)

(** X1: when [fetchInitialAlerts] resumes with an accepted page (the body
    parses, result code 200) the feed becomes that page and nothing else:
    whatever was stored, pushed or loaded before is discarded, [hasMore]
    is (count = 10), the cursor is 0 and the unread list is recomputed from
    the page.  On any other reply the state is left as it was. *)
Theorem initial_page_replaces_feed :
  forall (r : Reply) (s : State),
    (loadedPage r = None -> step (InitialSettled r) s = s) /\
    (forall firstPage, loadedPage r = Some firstPage ->
       alerts (step (InitialSettled r) s) = firstPage /\
       hasMore (step (InitialSettled r) s)
       = (Z.of_nat (length firstPage) =? 10) /\
       page (step (InitialSettled r) s) = 0 /\
       unreadAlerts (step (InitialSettled r) s) = unreadIds firstPage /\
       toast (step (InitialSettled r) s) = toast s /\
       (forall history,
           existsb isToast history = false ->
           run (history ++ [InitialSettled r]) s
           = step (InitialSettled r) s)).
Proof.
  intros r s. split.
  - intros H. unfold step. cbn [handle].
    now rewrite commit_fetchInitialAlerts_resume, H.
  - intros firstPage H.
    assert (forall s0, step (InitialSettled r) s0
                       = {| alerts := firstPage; toast := toast s0;
                            hasMore := Z.of_nat (length firstPage) =? 10;
                            page := 0;
                            unreadAlerts := unreadIds firstPage;
                            latestAlertsRef := firstPage |}) as E.
    { intros s0. unfold step. cbn [handle].
      now rewrite commit_fetchInitialAlerts_resume, H. }
    rewrite E. cbn [alerts hasMore page unreadAlerts toast].
    do 5 (split; [reflexivity |]).
    intros history Hq. rewrite run_app. cbn [run fold_left].
    rewrite E. f_equal. now apply toast_run_quiet.
Qed.

Lemma initial_page_replaces_feed_witness :
  alerts (step (InitialSettled (okPage firstTen)) feedOne) = firstTen /\
  run ([AlertMessage (Some (sampleAlert 11 false))]
       ++ [InitialSettled (okPage firstTen)]) feedOne
  = step (InitialSettled (okPage firstTen)) feedOne /\
  step (InitialSettled None) feedOne = feedOne.
Proof.
  destruct (initial_page_replaces_feed (okPage firstTen) feedOne)
    as [_ Hok].
  destruct (Hok firstTen eq_refl) as [Ha [_ [_ [_ [_ Hh]]]]].
  destruct (initial_page_replaces_feed None feedOne) as [Hfail _].
  split; [exact Ha | split; [apply Hh; reflexivity | exact (Hfail eq_refl)]].
Defined.

(** ** X2: the unread list follows the feed *)

Lemma settled_step (e : Event) (s : State) :
  settled s -> settled (step e s).
Proof.
  intros [Hu Hl]. unfold settled, step.
  destruct e as [r | [a |] | [a |] | | r | l r | q a f r]; cbn [handle];
    try (split; [exact Hu | exact Hl]); try (split; reflexivity).
  - rewrite commit_fetchInitialAlerts_resume.
    destruct (loadedPage r); split; try reflexivity; assumption.
  - rewrite commit_loadMore_resume.
    destruct (loadedPage r); split; try reflexivity; assumption.
  - rewrite commit_readAlerts_resume.
    destruct (acknowledged r); split; try reflexivity; assumption.
  - rewrite commit_handleFriendRequest_resume.
    destruct (acknowledged r); split; try reflexivity; assumption.
Qed.

(** X2: along every history of events the unread list is the list of the
    ids of the entries whose [isRead] is false, in feed order, and the ref
    holds the feed; so the published [unreadCount] is the number of unread
    entries.  This holds from the state of a fresh mount and from any
    state in which it holds. *)
Theorem unread_list_follows_feed :
  forall (history : list Event) (s : State),
    settled s ->
    settled (run history s) /\
    unreadCount (run history s)
    = Z.of_nat (length (filter (fun alert => negb (isRead alert))
                               (alerts (run history s)))).
Proof.
  intros history s Hs.
  assert (settled (run history s)) as Hr.
  { revert s Hs. induction history as [| e h IH]; intros s Hs;
      [exact Hs |].
    cbn [run fold_left]. apply IH. now apply settled_step. }
  split; [exact Hr |].
  unfold unreadCount. destruct Hr as [-> _]. unfold unreadIds.
  now rewrite length_map.
Qed.

Lemma unread_list_follows_feed_witness :
  settled initialState /\
  unreadAlerts (run sampleHistory initialState) = [12] /\
  unreadCount (run sampleHistory initialState) = 1.
Proof.
  assert (settled initialState) as H0 by (split; reflexivity).
  destruct (unread_list_follows_feed sampleHistory initialState H0)
    as [[Hu _] Hc].
  split; [exact H0 | split; [exact Hu | exact Hc]].
Defined.

(** ** X3, X4, X5: order, cursor and hasMore along a history *)

Lemma ids_alerts_step (e : Event) (s : State) :
  isInitial e = false ->
  ids (alerts (step e s))
  = ids (pushedBy e) ++ ids (alerts s) ++ ids (loadedBy e).
Proof.
  intros H. rewrite (alerts_step e s H).
  destruct e as [r | p | p | | r | l r | q a f r]; try discriminate H;
    unfold ids; rewrite ?map_app; try reflexivity.
  - cbn [pushedBy loadedBy map app]. rewrite app_nil_r.
    destruct (acknowledged r); [apply ids_map_markRead | reflexivity].
  - cbn [pushedBy loadedBy map app]. rewrite app_nil_r.
    destruct (acknowledged r); [apply ids_map_markProcessed | reflexivity].
Qed.

(** X3: in a history without a first page, the feed lists the pushed
    alerts, latest push first, then the entries it started with, then the
    alerts of the accepted [loadMore] pages in the order they came:
    acknowledging reads and handling friend requests move nothing. *)
Theorem feed_order_along_history :
  forall (history : list Event) (s : State),
    existsb isInitial history = false ->
    ids (alerts (run history s))
    = rev (ids (pushedIn history)) ++ ids (alerts s)
      ++ ids (loadedIn history).
Proof.
  intros history. induction history as [| e h IH]; intros s Hn.
  - cbn. now rewrite app_nil_r.
  - cbn [existsb] in Hn. apply orb_false_iff in Hn as [He Hh].
    cbn [run fold_left]. fold (run h (step e s)). rewrite (IH _ Hh).
    rewrite (ids_alerts_step e s He).
    unfold pushedIn, loadedIn, ids. cbn [flat_map].
    rewrite !map_app, rev_app_distr, <- !app_assoc. f_equal.
    destruct e as [r | [a |] | p | | r | l r | q a f r];
      try discriminate He; reflexivity.
Qed.

Lemma feed_order_along_history_witness :
  ids (alerts (run sampleHistory feedOne)) = [12; 11; 1; 2].
Proof.
  exact (feed_order_along_history sampleHistory feedOne eq_refl).
Defined.

Lemma page_hasMore_step (e : Event) (s : State) :
  isInitial e = false ->
  page (step e s) = page s + pagesAcceptedIn [e] /\
  hasMore (step e s) = hasMore s && negb (shortPage e).
Proof.
  intros H. unfold step, pagesAcceptedIn.
  destruct e as [r | [a |] | [a |] | | r | l r | q a f r];
    try discriminate H; cbn [handle shortPage filter length Z.of_nat];
    rewrite ?Z.add_0_r, ?andb_true_r; try (split; reflexivity).
  - rewrite commit_loadMore_resume.
    destruct (loadedPage r) as [newAlerts |];
      cbn [page hasMore length Z.of_nat Pos.of_succ_nat negb].
    + split; [reflexivity |].
      destruct (Z.of_nat (length newAlerts) <? 10); cbn [negb];
        [now rewrite andb_false_r | now rewrite andb_true_r].
    + now rewrite Z.add_0_r, andb_true_r.
  - rewrite commit_readAlerts_resume.
    destruct (acknowledged r); split; reflexivity.
  - rewrite commit_handleFriendRequest_resume.
    destruct (acknowledged r); split; reflexivity.
Qed.

Lemma pagesAcceptedIn_cons (e : Event) (h : list Event) :
  pagesAcceptedIn (e :: h) = pagesAcceptedIn [e] + pagesAcceptedIn h.
Proof.
  unfold pagesAcceptedIn. cbn [filter].
  destruct (match e with
            | LoadMoreSettled r =>
                match loadedPage r with Some _ => true | None => false end
            | _ => false
            end); cbn [length]; lia.
Qed.

(** X4: in a history without a first page the cursor has grown by the
    number of replies to [loadMore] that carried an accepted page, and by
    nothing else; the next [loadMore] asks for the page after it, with
    size 10. *)
Theorem cursor_counts_accepted_pages :
  forall (history : list Event) (s : State),
    existsb isInitial history = false ->
    page (run history s) = page s + pagesAcceptedIn history /\
    loadMore_request (run history s)
    = GetAlerts (page s + pagesAcceptedIn history + 1) 10.
Proof.
  intros history s Hn.
  assert (page (run history s) = page s + pagesAcceptedIn history) as Hp.
  { revert s Hn. induction history as [| e h IH]; intros s Hn.
    - cbn. lia.
    - cbn [existsb] in Hn. apply orb_false_iff in Hn as [He Hh].
      cbn [run fold_left]. fold (run h (step e s)). rewrite (IH _ Hh).
      destruct (page_hasMore_step e s He) as [-> _].
      rewrite (pagesAcceptedIn_cons e h). lia. }
  split; [exact Hp |]. unfold loadMore_request. now rewrite Hp.
Qed.

Lemma cursor_counts_accepted_pages_witness :
  page (run sampleHistory feedOne) = 1 /\
  loadMore_request (run sampleHistory feedOne) = GetAlerts 2 10.
Proof.
  exact (cursor_counts_accepted_pages sampleHistory feedOne eq_refl).
Defined.

(** X5: in a history without a first page [hasMore] is true exactly when
    it was true at the start and no accepted [loadMore] page had fewer than
    10 alerts; once false it stays false, whatever arrives. *)
Theorem hasMore_only_falls :
  forall (history : list Event) (s : State),
    existsb isInitial history = false ->
    hasMore (run history s) = hasMore s && negb (existsb shortPage history).
Proof.
  intros history. induction history as [| e h IH]; intros s Hn.
  - cbn. now rewrite andb_true_r.
  - cbn [existsb] in Hn. apply orb_false_iff in Hn as [He Hh].
    cbn [run fold_left existsb]. fold (run h (step e s)).
    rewrite (IH _ Hh). destruct (page_hasMore_step e s He) as [_ ->].
    rewrite negb_orb. now rewrite andb_assoc.
Qed.

Lemma hasMore_only_falls_witness :
  hasMore (run sampleHistory feedOne) = false /\
  hasMore (run [LoadMoreSettled (okPage tenAlerts)] feedDone) = false.
Proof.
  split.
  - exact (hasMore_only_falls sampleHistory feedOne eq_refl).
  - exact (hasMore_only_falls [LoadMoreSettled (okPage tenAlerts)] feedDone
             eq_refl).
Defined.

(** ** X6: two calls of loadMore in flight *)

(** X6: two calls of [loadMore] made before either settles send the same
    request, for the page after the cursor; when the server answers it
    with an accepted page, that page is appended twice and the cursor
    moves by two. *)
Theorem overlapping_loadMores_repeat_the_page :
  forall (net : Request -> Reply) (s : State),
    fst (overlappingLoadMores net s)
    = [GetAlerts (page s + 1) 10; GetAlerts (page s + 1) 10] /\
    alerts (snd (overlappingLoadMores net s))
    = alerts s ++ loaded (net (GetAlerts (page s + 1) 10))
               ++ loaded (net (GetAlerts (page s + 1) 10)) /\
    (forall newAlerts,
        loadedPage (net (GetAlerts (page s + 1) 10)) = Some newAlerts ->
        page (snd (overlappingLoadMores net s)) = page s + 2).
Proof.
  intros net s. unfold overlappingLoadMores, loadMore_request.
  cbn [fst snd run fold_left]. unfold step. cbn [handle].
  split; [reflexivity |]. split.
  - rewrite !alerts_loadMore_resume. now rewrite app_assoc.
  - intros newAlerts H. rewrite !commit_loadMore_resume, H.
    cbn [page]. lia.
Qed.

Lemma overlapping_loadMores_repeat_the_page_witness :
  ids (alerts (snd (overlappingLoadMores netPageTwo feedOne))) = [1; 2; 2] /\
  page (snd (overlappingLoadMores netPageTwo feedOne)) = 2.
Proof.
  destruct (overlapping_loadMores_repeat_the_page netPageTwo feedOne)
    as [_ [Ha Hp]].
  split; [now rewrite Ha | exact (Hp _ eq_refl)].
Defined.

(** ** X7: the toast slot *)

Lemma toastAfter_cons (e : Event) (h : list Event) (shown : option Alert) :
  toastAfter (e :: h) shown = toastAfter h (toastAfter [e] shown).
Proof. reflexivity. Qed.

Lemma toast_step (e : Event) (s : State) :
  toast (step e s) = toastAfter [e] (toast s).
Proof.
  unfold step.
  destruct e as [r | [a |] | [a |] | | r | l r | q a f r]; cbn [handle];
    try reflexivity.
  - rewrite commit_fetchInitialAlerts_resume. now destruct (loadedPage r).
  - rewrite commit_loadMore_resume. now destruct (loadedPage r).
  - rewrite commit_readAlerts_resume. now destruct (acknowledged r).
  - rewrite commit_handleFriendRequest_resume.
    now destruct (acknowledged r).
Qed.

Lemma feed_step_toast (e : Event) (s : State) :
  isToast e = true ->
  alerts (step e s) = alerts s /\ hasMore (step e s) = hasMore s /\
  page (step e s) = page s /\ unreadAlerts (step e s) = unreadAlerts s.
Proof.
  intros H. rewrite (step_toast e s H). repeat split.
Qed.

(** The feed fields of a state, apart from the toast. *)
Lemma step_feed_irrelevant_toast (e : Event) (s1 s2 : State) :
  alerts s1 = alerts s2 -> hasMore s1 = hasMore s2 -> page s1 = page s2 ->
  unreadAlerts s1 = unreadAlerts s2 ->
  alerts (step e s1) = alerts (step e s2) /\
  hasMore (step e s1) = hasMore (step e s2) /\
  page (step e s1) = page (step e s2) /\
  unreadAlerts (step e s1) = unreadAlerts (step e s2).
Proof.
  intros Ha Hm Hp Hu. unfold step.
  destruct e as [r | [a |] | [a |] | | r | l r | q a f r]; cbn [handle].
  - rewrite !commit_fetchInitialAlerts_resume.
    destruct (loadedPage r); repeat split; assumption.
  - rewrite !commit_onAlertMessage. cbn. now rewrite Ha, Hm, Hp.
  - cbn. repeat split; assumption.
  - cbn. repeat split; assumption.
  - cbn. repeat split; assumption.
  - cbn. repeat split; assumption.
  - rewrite !commit_loadMore_resume.
    destruct (loadedPage r); cbn; rewrite ?Ha, ?Hm, ?Hp; repeat split;
      assumption.
  - rewrite !commit_readAlerts_resume.
    destruct (acknowledged r); cbn; rewrite ?Ha, ?Hm, ?Hp; repeat split;
      assumption.
  - rewrite !commit_handleFriendRequest_resume.
    destruct (acknowledged r); cbn; rewrite ?Ha, ?Hm, ?Hp; repeat split;
      assumption.
Qed.

(** X7: the toast is a single slot beside the feed.  After any history it
    shows the alert of the latest decodable toast message, unless the toast
    was closed since, and no other event changes it; and the feed, the
    cursor, [hasMore] and the unread list are what they would be had no
    toast message arrived and no toast been closed. *)
Theorem toast_and_feed_are_independent :
  forall (history : list Event) (s : State),
    toast (run history s) = toastAfter history (toast s) /\
    alerts (run history s)
    = alerts (run (filter (fun e => negb (isToast e)) history) s) /\
    hasMore (run history s)
    = hasMore (run (filter (fun e => negb (isToast e)) history) s) /\
    page (run history s)
    = page (run (filter (fun e => negb (isToast e)) history) s) /\
    unreadAlerts (run history s)
    = unreadAlerts (run (filter (fun e => negb (isToast e)) history) s).
Proof.
  intros history s. split.
  - revert s. induction history as [| e h IH]; intros s; [reflexivity |].
    cbn [run fold_left]. fold (run h (step e s)).
    rewrite IH, toast_step. symmetry. apply toastAfter_cons.
  - assert (forall s1 s2,
              alerts s1 = alerts s2 -> hasMore s1 = hasMore s2 ->
              page s1 = page s2 -> unreadAlerts s1 = unreadAlerts s2 ->
              alerts (run history s1)
              = alerts (run (filter (fun e => negb (isToast e)) history) s2) /\
              hasMore (run history s1)
              = hasMore (run (filter (fun e => negb (isToast e)) history) s2) /\
              page (run history s1)
              = page (run (filter (fun e => negb (isToast e)) history) s2) /\
              unreadAlerts (run history s1)
              = unreadAlerts
                  (run (filter (fun e => negb (isToast e)) history) s2))
      as G; [| now apply G].
    induction history as [| e h IH]; intros s1 s2 Ha Hm Hp Hu.
    + cbn. repeat split; assumption.
    + cbn [run fold_left filter]. fold (run h (step e s1)).
      destruct (isToast e) eqn:T; cbn [negb].
      * destruct (feed_step_toast e s1 T) as [Ea [Em [Ep Eu]]].
        apply IH; congruence.
      * cbn [run fold_left].
        fold (run (filter (fun e => negb (isToast e)) h) (step e s2)).
        destruct (step_feed_irrelevant_toast e s1 s2 Ha Hm Hp Hu)
          as [Ea [Em [Ep Eu]]].
        now apply IH.
Qed.

(** ** X8, X9: acknowledging reads and handling friend requests *)

Lemma markRead_markProcessed_comm (alertIds : list Z) (alertId : Z)
    (action : FriendAction) (a : Alert) :
  markRead alertIds (markProcessed alertId action a)
  = markProcessed alertId action (markRead alertIds a).
Proof.
  unfold markRead, markProcessed.
  destruct (id a =? alertId) eqn:E1, (includes alertIds (id a)) eqn:E2;
    cbn [id isRead processedAction payload]; rewrite ?E1, ?E2; reflexivity.
Qed.

(** X8: acknowledging reads and marking a friend request do not disturb
    each other: whichever of the two replies is handled first, the provider
    ends in the same state. *)
Theorem read_and_friend_request_commute :
  forall (alertIds : list Z) (r1 : Reply)
         (requestId alertId : Z) (action : FriendAction) (r2 : Reply)
         (s : State),
    run [ReadSettled alertIds r1;
         FriendSettled requestId alertId action r2] s
    = run [FriendSettled requestId alertId action r2;
           ReadSettled alertIds r1] s.
Proof.
  intros alertIds r1 requestId alertId action r2 s.
  cbn [run fold_left]. unfold step. cbn [handle].
  rewrite !commit_readAlerts_resume, !commit_handleFriendRequest_resume.
  destruct (acknowledged r1), (acknowledged r2); try reflexivity.
  cbn [alerts toast hasMore page unreadAlerts latestAlertsRef alertsEffects].
  assert (map (markProcessed alertId action)
              (map (markRead alertIds) (alerts s))
          = map (markRead alertIds)
                (map (markProcessed alertId action) (alerts s))) as ->;
    [| reflexivity].
  rewrite !map_map. apply map_ext. intros a. symmetry.
  apply markRead_markProcessed_comm.
Qed.

Lemma includes_app (l1 l2 : list Z) (x : Z) :
  includes (l1 ++ l2) x = includes l1 x || includes l2 x.
Proof. unfold includes. apply existsb_app. Qed.

Lemma markRead_app (l1 l2 : list Z) (a : Alert) :
  markRead l2 (markRead l1 a) = markRead (l1 ++ l2) a.
Proof.
  unfold markRead. rewrite includes_app.
  destruct (includes l1 (id a)) eqn:E1; cbn [id orb].
  - now destruct (includes l2 (id a)).
  - destruct (includes l2 (id a)); reflexivity.
Qed.

(** X9: two acknowledged calls of [readAlerts], for [first] and then for
    [second], leave the provider in the state one acknowledged call for
    all these ids leaves it in; in particular a call with no ids changes
    no entry. *)
Theorem readAlerts_calls_add_up :
  forall (first second : list Z) (r1 r2 r : Reply) (s : State),
    acknowledged r1 = true -> acknowledged r2 = true ->
    acknowledged r = true ->
    run [ReadSettled first r1; ReadSettled second r2] s
    = run [ReadSettled (first ++ second) r] s /\
    alerts (run [ReadSettled [] r] s) = alerts s.
Proof.
  intros first second r1 r2 r s H1 H2 H.
  cbn [run fold_left]. unfold step. cbn [handle].
  rewrite !commit_readAlerts_resume, H1, H2, H.
  cbn [alerts toast hasMore page unreadAlerts latestAlertsRef]. split.
  - assert (map (markRead second) (map (markRead first) (alerts s))
            = map (markRead (first ++ second)) (alerts s)) as ->;
      [| reflexivity].
    rewrite map_map. apply map_ext. intros a. apply markRead_app.
  - rewrite <- (map_id (alerts s)) at 2. apply map_ext. intros a.
    reflexivity.
Qed.

Lemma readAlerts_calls_add_up_witness :
  run [ReadSettled [1] okReply; ReadSettled [2] okReply] afterFirstPage
  = run [ReadSettled ([1] ++ [2]) okReply] afterFirstPage.
Proof.
  exact (proj1 (readAlerts_calls_add_up [1] [2] okReply okReply okReply
                  afterFirstPage eq_refl eq_refl eq_refl)).
Defined.

(** ** X10, X11: the effect on isOpen *)

(** X10: the effect on [isOpen] calls [readAlerts] at most once per run and
    only when the feed goes from open to closed with an unread entry: never
    when the feed opens, never when [isOpen] did not change, never with an
    empty list of ids, and never on the run after the mount, when the feed
    is still empty. *)
Theorem isOpen_effect_calls_only_on_close :
  forall (was isOpen : bool) (s : State),
    (rerender_isOpen was isOpen s = [] \/
     (was = true /\ isOpen = false /\ unreadIds (alerts s) <> [] /\
      rerender_isOpen was isOpen s = [unreadIds (alerts s)])) /\
    isOpenEffect isOpen initialState = [].
Proof.
  intros was isOpen s. split.
  - unfold rerender_isOpen.
    destruct was, isOpen; cbn [Bool.eqb]; try (now left).
    rewrite isOpenEffect_closed.
    destruct (unreadIds (alerts s)) as [| i u] eqn:E; [now left |].
    right. repeat split. discriminate.
  - unfold isOpenEffect. cbn. now rewrite andb_false_r.
Qed.

Lemma markRead_all_unread (l : list Alert) :
  forallb isRead (map (markRead (unreadIds l)) l) = true.
Proof.
  apply forallb_forall. intros a' Hin.
  apply in_map_iff in Hin as [a [<- Hin]].
  destruct (markRead_fields (unreadIds l) a) as [_ [_ [_ ->]]].
  destruct (includes (unreadIds l) (id a)) eqn:E; [reflexivity |].
  destruct (isRead a) eqn:R; [reflexivity |].
  assert (In (id a) (unreadIds l)) as Hi.
  { apply In_unreadIds. now exists a. }
  apply includes_In in Hi. congruence.
Qed.

Lemma unreadIds_all_read (l : list Alert) :
  forallb isRead l = true -> unreadIds l = [].
Proof.
  unfold unreadIds. induction l as [| a l IH]; [reflexivity |].
  cbn [forallb filter]. intros H. apply andb_true_iff in H as [Ha Hl].
  rewrite Ha. cbn [negb]. now apply IH.
Qed.

(** X11: when closing the feed calls [readAlerts] and the request is
    acknowledged with nothing else in between, every entry of the feed is
    read, the unread list is empty and the count is 0, and closing the
    feed again calls nothing. *)
Theorem closing_then_acknowledged_reads_everything :
  forall (net : Request -> Reply) (s : State) (alertIds : list Z),
    In alertIds (rerender_isOpen true false s) ->
    acknowledged (net (PatchAlerts alertIds)) = true ->
    forallb isRead (alerts (final (readAlerts alertIds net s))) = true /\
    unreadAlerts (final (readAlerts alertIds net s)) = [] /\
    unreadCount (final (readAlerts alertIds net s)) = 0 /\
    rerender_isOpen true false (final (readAlerts alertIds net s)) = [].
Proof.
  intros net s alertIds Hin Hack.
  assert (alertIds = unreadIds (alerts s)) as ->.
  { unfold rerender_isOpen in Hin. cbn [Bool.eqb] in Hin.
    rewrite isOpenEffect_closed in Hin.
    destruct (unreadIds (alerts s)); [destruct Hin |].
    now destruct Hin as [<- | []]. }
  unfold readAlerts, call, readAlerts_request. cbn [final].
  rewrite commit_readAlerts_resume, Hack.
  unfold unreadCount, rerender_isOpen. cbn [Bool.eqb].
  rewrite isOpenEffect_closed. cbn [alerts unreadAlerts].
  pose proof (markRead_all_unread (alerts s)) as Hall.
  rewrite (unreadIds_all_read _ Hall). repeat split. exact Hall.
Qed.

Lemma closing_then_acknowledged_reads_everything_witness :
  forallb isRead
    (alerts (final (readAlerts [11; 1; 2; 3; 4; 5; 6; 7; 8; 9; 10] netOk
                               afterPushEleven))) = true /\
  unreadCount (final (readAlerts [11; 1; 2; 3; 4; 5; 6; 7; 8; 9; 10] netOk
                                 afterPushEleven)) = 0.
Proof.
  destruct (closing_then_acknowledged_reads_everything netOk afterPushEleven
              [11; 1; 2; 3; 4; 5; 6; 7; 8; 9; 10])
    as [Ha [_ [Hc _]]].
  - left. reflexivity.
  - reflexivity.
  - split; [exact Ha | exact Hc].
Defined.

(** ** X12: entries are kept *)

Lemma keeps_refl (a : Alert) : keeps a a.
Proof. repeat split; auto. Qed.

Lemma keeps_trans (a b c : Alert) : keeps a b -> keeps b c -> keeps a c.
Proof.
  intros [H1 [H2 [H3 H4]]] [K1 [K2 [K3 K4]]]. repeat split.
  - congruence.
  - congruence.
  - auto.
  - auto.
Qed.

Lemma keeps_markRead (alertIds : list Z) (a : Alert) :
  keeps a (markRead alertIds a).
Proof.
  destruct (markRead_fields alertIds a) as [Hi [Hp [Hy Hr]]].
  repeat split; try assumption.
  - intros R. rewrite Hr, R. now destruct (includes alertIds (id a)).
  - now rewrite Hp.
Qed.

Lemma keeps_markProcessed (alertId : Z) (action : FriendAction) (a : Alert) :
  keeps a (markProcessed alertId action a).
Proof.
  destruct (markProcessed_fields alertId action a) as [Hi [Hr [Hy Hp]]].
  repeat split; try assumption.
  - now rewrite Hr.
  - rewrite Hp. destruct (id a =? alertId); [discriminate | trivial].
Qed.

Lemma kept_by_step (e : Event) (s : State) (k : nat) (a : Alert) :
  isInitial e = false ->
  nth_error (alerts s) k = Some a ->
  exists a', nth_error (alerts (step e s)) (length (pushedBy e) + k) = Some a'
             /\ keeps a a'.
Proof.
  intros He Hk. rewrite (alerts_step e s He).
  destruct e as [r | [p |] | p | | r | l r | q i f r]; try discriminate He;
    cbn [pushedBy loadedBy length Nat.add app]; rewrite ?app_nil_r;
    try (exists a; split; [exact Hk | apply keeps_refl]).
  - exists a. split; [| apply keeps_refl].
    rewrite nth_error_app1; [exact Hk |].
    apply nth_error_Some. congruence.
  - destruct (acknowledged r).
    + exists (markRead l a). rewrite nth_error_map, Hk.
      split; [reflexivity | apply keeps_markRead].
    + exists a. split; [exact Hk | apply keeps_refl].
  - destruct (acknowledged r).
    + exists (markProcessed i f a). rewrite nth_error_map, Hk.
      split; [reflexivity | apply keeps_markProcessed].
    + exists a. split; [exact Hk | apply keeps_refl].
Qed.

(** X12: in a history without a first page no entry is ever dropped or
    reordered, turned unread again, or stripped of its processed marker:
    the entry at position [k] is found [n] places further down, [n] being
    the number of alerts pushed since, with the same id and payload, read
    if it was read and marked if it was marked. *)
Theorem entries_are_kept_along_history :
  forall (history : list Event) (s : State) (k : nat) (a : Alert),
    existsb isInitial history = false ->
    nth_error (alerts s) k = Some a ->
    exists a',
      nth_error (alerts (run history s)) (length (pushedIn history) + k)
      = Some a' /\ keeps a a'.
Proof.
  intros history. induction history as [| e h IH]; intros s k a Hn Hk.
  - exists a. split; [exact Hk | apply keeps_refl].
  - cbn [existsb] in Hn. apply orb_false_iff in Hn as [He Hh].
    destruct (kept_by_step e s k a He Hk) as [b [Hb Kb]].
    destruct (IH (step e s) _ b Hh Hb) as [c [Hc Kc]].
    exists c. split; [| exact (keeps_trans _ _ _ Kb Kc)].
    cbn [run fold_left]. fold (run h (step e s)).
    unfold pushedIn. cbn [flat_map]. rewrite length_app.
    fold (pushedIn h).
    replace (length (pushedBy e) + length (pushedIn h) + k)%nat
      with (length (pushedIn h) + (length (pushedBy e) + k))%nat by lia.
    exact Hc.
Qed.

Lemma entries_are_kept_along_history_witness :
  exists a',
    nth_error (alerts (run sampleHistory feedRejected)) 2 = Some a' /\
    isRead a' = true /\ processedAction a' <> None.
Proof.
  destruct (entries_are_kept_along_history sampleHistory feedRejected 0 _
              eq_refl eq_refl) as [a' [Hn [_ [_ [Hr Hp]]]]].
  exists a'. split; [exact Hn |].
  split; [apply Hr; reflexivity | apply Hp; discriminate].
Defined.

(** ** X13: the push connection *)

Lemma oneClient_runCleanup (m : Mounted) :
  oneClient m ->
  clientRef (runCleanup m) = None /\ active (runCleanup m) = [] /\
  initialFetches (runCleanup m) = constructed (runCleanup m).
Proof.
  intros [Ha [Hc [_ Hf]]]. unfold runCleanup, loginCleanup.
  destruct (hasCleanup m) eqn:C.
  - destruct (clientRef (conn m)) as [client |] eqn:R;
      cbn [clientRef active initialFetches constructed].
    + rewrite Ha. cbn [filter]. rewrite Nat.eqb_refl. cbn [negb].
      repeat split. exact Hf.
    + rewrite R, Ha. repeat split. exact Hf.
  - destruct (clientRef (conn m)) as [client |] eqn:R.
    + assert (false = true) as X by (apply Hc; discriminate).
      discriminate X.
    + rewrite Ha. repeat split. exact Hf.
Qed.

Lemma oneClient_runEffect (isLoggedIn : bool) (userInfo : option Z)
    (c : Connection) :
  clientRef c = None -> active c = [] ->
  initialFetches c = constructed c ->
  oneClient (runEffect isLoggedIn userInfo c).
Proof.
  intros Hr Ha Hf. unfold runEffect, loginEffect, oneClient.
  destruct userInfo as [uid |]; cbn [conn hasCleanup lastDep clientRef active
                                    initialFetches constructed].
  - rewrite Ha. repeat split. + discriminate. + now rewrite Hf.
  - rewrite Hr, Ha. repeat split; try assumption. now intros X.
Qed.

Lemma oneClient_lifeStep (e : Lifecycle) (m : Mounted) :
  oneClient m -> oneClient (lifeStep e m).
Proof.
  intros H. destruct e as [isLoggedIn userInfo |]; cbn [lifeStep].
  - destruct (lastDep m) as [was |] eqn:D.
    + destruct (Bool.eqb was isLoggedIn); [exact H |].
      destruct (oneClient_runCleanup m H) as [Hr [Ha Hf]].
      now apply oneClient_runEffect.
    + destruct H as [Ha [Hc [Hn Hf]]]. specialize (Hn D).
      apply oneClient_runEffect; try assumption. now rewrite Ha, Hn.
  - destruct (oneClient_runCleanup m H) as [Hr [Ha Hf]].
    unfold oneClient. cbn [conn hasCleanup lastDep].
    rewrite Hr, Ha. repeat split; try assumption. now intros X.
Qed.

Lemma oneClient_life (events : list Lifecycle) (m : Mounted) :
  oneClient m -> oneClient (life events m).
Proof.
  revert m. induction events as [| e es IH]; intros m H; [exact H |].
  cbn [life fold_left]. apply IH. now apply oneClient_lifeStep.
Qed.

Lemma life_app (es1 es2 : list Lifecycle) (m : Mounted) :
  life (es1 ++ es2) m = life es2 (life es1 m).
Proof. apply fold_left_app. Qed.

(** X13: however the provider is mounted, re-rendered and unmounted, at
    most one client is active, and it is the one [clientRef] holds; each
    client constructed came with exactly one call of [fetchInitialAlerts];
    after an unmount no client is active; and after a re-render in which
    [isLoggedIn] changed and no user is stored no client is active and
    nothing was fetched or constructed. *)
Theorem at_most_one_active_client :
  forall (events : list Lifecycle),
    (length (active (conn (life events unmounted))) <= 1)%nat /\
    active (conn (life events unmounted))
    = match clientRef (conn (life events unmounted)) with
      | Some client => [client]
      | None => []
      end /\
    initialFetches (conn (life events unmounted))
    = constructed (conn (life events unmounted)) /\
    active (conn (life (events ++ [Unmount]) unmounted)) = [] /\
    (forall isLoggedIn,
        lastDep (life events unmounted) <> Some isLoggedIn ->
        active (conn (life (events ++ [Render isLoggedIn None]) unmounted))
        = [] /\
        constructed
          (conn (life (events ++ [Render isLoggedIn None]) unmounted))
        = constructed (conn (life events unmounted))).
Proof.
  intros events.
  assert (oneClient unmounted) as H0 by (repeat split; now intros X).
  pose proof (oneClient_life events unmounted H0) as H.
  set (m := life events unmounted) in *.
  destruct H as [Ha [Hc [Hn Hf]]].
  split; [| split; [exact Ha | split; [exact Hf | split]]].
  - rewrite Ha. destruct (clientRef (conn m)); cbn; lia.
  - rewrite life_app. fold m. cbn [life fold_left lifeStep conn].
    now destruct (oneClient_runCleanup m (conj Ha (conj Hc (conj Hn Hf)))) as [_ [-> _]].
  - intros isLoggedIn Hd. rewrite life_app. fold m.
    cbn [life fold_left lifeStep].
    destruct (oneClient_runCleanup m (conj Ha (conj Hc (conj Hn Hf))))
      as [Hr [Hact Hfc]].
    destruct (lastDep m) as [was |] eqn:D.
    + destruct (Bool.eqb was isLoggedIn) eqn:E.
      * apply Bool.eqb_prop in E. subst was. now elim Hd.
      * unfold runEffect, loginEffect. cbn [conn]. split; [exact Hact |].
        unfold runCleanup, loginCleanup.
        destruct (hasCleanup m); [| reflexivity].
        now destruct (clientRef (conn m)).
    + unfold runEffect, loginEffect. cbn [conn]. split; [| reflexivity].
      rewrite Ha, (Hn eq_refl). reflexivity.
Qed.

Lemma at_most_one_active_client_witness :
  active (conn (life [Render false None; Render true (Some 7);
                      Render true (Some 7); Render false (Some 7)]
                     unmounted)) = [1%nat] /\
  active (conn (life ([Render true (Some 7)] ++ [Render false None])
                     unmounted)) = [].
Proof.
  split; [reflexivity |].
  destruct (at_most_one_active_client [Render true (Some 7)])
    as [_ [_ [_ [_ H]]]].
  apply (H false). discriminate.
Defined.

(** * Header, Login and Footer *)

(** ** localStorage *)

Lemma getItem_removeItem_same (key : string) (st : Storage) :
  getItem key (removeItem key st) = None.
Proof.
  unfold removeItem. induction st as [| [k v] st IH]; [reflexivity |].
  cbn [filter fst]. destruct (k =? key)%string eqn:E; cbn [negb].
  - exact IH.
  - cbn [getItem]. now rewrite E.
Qed.

Lemma getItem_removeItem_other (key other : string) (st : Storage) :
  other <> key ->
  getItem other (removeItem key st) = getItem other st.
Proof.
  intros Hne. unfold removeItem.
  induction st as [| [k v] st IH]; [reflexivity |].
  cbn [filter fst getItem]. destruct (k =? key)%string eqn:E; cbn [negb].
  - apply String.eqb_eq in E. subst k.
    destruct (key =? other)%string eqn:E2; [| exact IH].
    apply String.eqb_eq in E2. now elim Hne.
  - cbn [getItem]. now rewrite IH.
Qed.

(** ** X14: logging out *)

(** X14: [handleLogout] does not look at the status of the response.
    Whenever the request settles with a response, 2xx or not, the user is
    logged out, the items [isLoggedIn] and [userInfo] are gone from
    [localStorage] (so the guard on the stored user fails) and every other
    item is untouched.  When the request rejects, the login state and
    [localStorage] are left as they were and the failure is logged. *)
Theorem logout_clears_session_on_any_response :
  forall (r : Reply) (s : Session),
    (forall response, r = Some response ->
       loggedIn (handleLogout_resume r s) = false /\
       getItem "isLoggedIn" (localStorage (handleLogout_resume r s)) = None /\
       getItem "userInfo" (localStorage (handleLogout_resume r s)) = None /\
       hasUserInfo (localStorage (handleLogout_resume r s)) = false /\
       (forall key, key <> "isLoggedIn" -> key <> "userInfo" ->
          getItem key (localStorage (handleLogout_resume r s))
          = getItem key (localStorage s)) /\
       errors (handleLogout_resume r s) = errors s) /\
    (r = None ->
       loggedIn (handleLogout_resume r s) = loggedIn s /\
       localStorage (handleLogout_resume r s) = localStorage s /\
       errors (handleLogout_resume r s) = errors s ++ ["로그아웃 실패:"]).
Proof.
  intros r s. split.
  - intros response ->. cbn [handleLogout_resume loggedIn localStorage errors].
    assert (getItem "userInfo"
              (removeItem "userInfo"
                 (removeItem "isLoggedIn" (localStorage s))) = None) as Hu
      by apply getItem_removeItem_same.
    split; [reflexivity |]. split.
    { rewrite getItem_removeItem_other by discriminate.
      apply getItem_removeItem_same. }
    split; [exact Hu |]. split; [unfold hasUserInfo; now rewrite Hu |].
    split; [| reflexivity].
    intros key H1 H2. now rewrite !getItem_removeItem_other.
  - intros ->. repeat split.
Qed.

Lemma logout_clears_session_on_any_response_witness :
  loggedIn (handleLogout_resume (Some {| ok := false; json := None |})
                                sampleSession) = false /\
  hasUserInfo (localStorage
    (handleLogout_resume (Some {| ok := false; json := None |})
                         sampleSession)) = false /\
  getItem "theme" (localStorage
    (handleLogout_resume (Some {| ok := false; json := None |})
                         sampleSession)) = Some "dark" /\
  loggedIn (handleLogout_resume None sampleSession) = true.
Proof.
  destruct (logout_clears_session_on_any_response
              (Some {| ok := false; json := None |}) sampleSession)
    as [Hok _].
  destruct (Hok _ eq_refl) as [Hl [_ [_ [Hu [Hk _]]]]].
  destruct (logout_clears_session_on_any_response None sampleSession)
    as [_ Hfail].
  destruct (Hfail eq_refl) as [Hn _].
  split; [exact Hl | split; [exact Hu | split; [| exact Hn]]].
  rewrite Hk; [reflexivity | discriminate | discriminate].
Defined.

(** ** X15: logging in *)



(** ** X16: what Header shows *)

Lemma prefix_http_bucket (profilePath : string) :
  prefix "http" (bucket ++ profilePath)%string = true.
Proof. reflexivity. Qed.

(** X16: the address of the profile picture always starts with http: a
    path that does is used as it is, any other is put under the storage
    bucket; resolving an address twice changes nothing more; no picture is
    shown for a missing or empty path; and the name shown is never empty. *)
Theorem header_picture_and_name :
  forall (profilePath nickname : option string),
    (forall src, profileImage profilePath = Some src ->
       prefix "http" src = true /\ profileSrc src = src /\
       exists path, profilePath = Some path /\ path <> ""%string /\
                    (prefix "http" path = true -> src = path) /\
                    (prefix "http" path = false ->
                     src = (bucket ++ path)%string)) /\
    (profilePath = None \/ profilePath = Some ""%string ->
     profileImage profilePath = None) /\
    displayName nickname <> ""%string.
Proof.
  intros profilePath nickname. split; [| split].
  - intros src H. destruct profilePath as [path |]; [| discriminate H].
    cbn [profileImage truthy] in H.
    destruct (path =? "")%string eqn:E; [discriminate H |].
    cbn [negb] in H. injection H as <-.
    apply String.eqb_neq in E.
    assert (prefix "http" (profileSrc path) = true) as Hsrc.
    { unfold profileSrc. destruct (prefix "http" path) eqn:P;
        [exact P | apply prefix_http_bucket]. }
    split; [exact Hsrc |]. split.
    { unfold profileSrc at 1. now rewrite Hsrc. }
    exists path. split; [reflexivity | split; [exact E |]].
    unfold profileSrc. split; intros ->; reflexivity.
  - intros [-> | ->]; reflexivity.
  - destruct nickname as [name |]; cbn [displayName truthy];
      [| discriminate].
    destruct (name =? "")%string eqn:E; cbn [negb]; [discriminate |].
    now apply String.eqb_neq in E.
Qed.

Lemma header_picture_and_name_witness :
  profileImage (Some "a.png"%string)
  = Some "https://kr.object.ncloudstorage.com/hf-bucket2025/member/a.png"%string
  /\ prefix "http"
       "https://kr.object.ncloudstorage.com/hf-bucket2025/member/a.png" = true.
Proof.
  destruct (header_picture_and_name (Some "a.png"%string) None) as [H _].
  destruct (H _ eq_refl) as [Hp _].
  split; [reflexivity | exact Hp].
Defined.

(** ** X17: the tabs of Footer *)


(** * Marking and delivery *)

(** X18: a reply to [readAlerts] or to [handleFriendRequest] and the
    arrival of new alerts (a push, or a page of [loadMore]) can be handled
    in either order with the same result, provided none of the arriving
    alerts has an id the reply marks.  So an alert pushed while an
    acknowledgement is in flight stays as it was pushed. *)
Theorem marking_commutes_with_other_deliveries :
  forall (arrival : Event) (s : State),
    (exists parsed, arrival = AlertMessage parsed) \/
    (exists r, arrival = LoadMoreSettled r) ->
    (forall (alertIds : list Z) (r : Reply),
        (forall a, In a (pushedBy arrival ++ loadedBy arrival) ->
                   ~ In (id a) alertIds) ->
        run [arrival; ReadSettled alertIds r] s
        = run [ReadSettled alertIds r; arrival] s) /\
    (forall (requestId alertId : Z) (action : FriendAction) (r : Reply),
        (forall a, In a (pushedBy arrival ++ loadedBy arrival) ->
                   id a <> alertId) ->
        run [arrival; FriendSettled requestId alertId action r] s
        = run [FriendSettled requestId alertId action r; arrival] s).
Proof.
  intros arrival s Harr.
  assert (forall (f : Alert -> Alert) (l new : list Alert),
             map f new = new ->
             map f (l ++ new) = map f l ++ new) as Happ.
  { intros f l new H. now rewrite map_app, H. }
  split.
  - intros alertIds r Hfresh.
    assert (map (markRead alertIds) (pushedBy arrival ++ loadedBy arrival)
            = pushedBy arrival ++ loadedBy arrival) as Hid
      by now apply map_markRead_absent.
    cbn [run fold_left]. unfold step. cbn [handle].
    rewrite !commit_readAlerts_resume.
    destruct Harr as [[[a |] ->] | [r' ->]]; cbn [handle].
    + rewrite !commit_onAlertMessage.
      destruct (acknowledged r); [| reflexivity].
      cbn [alerts toast hasMore page map]. cbn in Hid.
      injection Hid as Hid. now rewrite Hid.
    + now destruct (acknowledged r).
    + rewrite !commit_loadMore_resume.
      cbn [pushedBy loadedBy app] in Hid. unfold loaded in Hid.
      destruct (loadedPage r') as [batch |], (acknowledged r);
        try reflexivity.
      cbn [alerts toast hasMore page]. now rewrite (Happ _ _ _ Hid).
  - intros requestId alertId action r Hfresh.
    assert (map (markProcessed alertId action)
                (pushedBy arrival ++ loadedBy arrival)
            = pushedBy arrival ++ loadedBy arrival) as Hid
      by now apply map_markProcessed_absent.
    cbn [run fold_left]. unfold step. cbn [handle].
    rewrite !commit_handleFriendRequest_resume.
    destruct Harr as [[[a |] ->] | [r' ->]]; cbn [handle].
    + rewrite !commit_onAlertMessage.
      destruct (acknowledged r); [| reflexivity].
      cbn [alerts toast hasMore page map alertsEffects]. cbn in Hid.
      injection Hid as Hid. now rewrite Hid.
    + now destruct (acknowledged r).
    + rewrite !commit_loadMore_resume.
      cbn [pushedBy loadedBy app] in Hid. unfold loaded in Hid.
      destruct (loadedPage r') as [batch |], (acknowledged r);
        try reflexivity.
      cbn [alerts toast hasMore page alertsEffects].
      now rewrite (Happ _ _ _ Hid).
Qed.

Lemma marking_commutes_with_other_deliveries_witness :
  run [AlertMessage (Some (sampleAlert 11 false)); ReadSettled [1] okReply]
      feedOne
  = run [ReadSettled [1] okReply; AlertMessage (Some (sampleAlert 11 false))]
        feedOne.
Proof.
  destruct (marking_commutes_with_other_deliveries
              (AlertMessage (Some (sampleAlert 11 false))) feedOne)
    as [H _].
  - left. now exists (Some (sampleAlert 11 false)).
  - apply H. intros a [<- | []] [X | []]. discriminate X.
Defined.
